(** * Calculator: the state machine of [src/Calculator.ts]

    The calculator keeps five fields ([lcd], [arg], [lastOp], [overwrite],
    [repeat]) and a logger, and exposes one method per button.  Every method
    is embedded below as a function from calculator to calculator, statement
    by statement.

    JavaScript numbers are IEEE 754 binary64 values.  They are modelled by
    the Standard Library's executable specification of binary floating point
    ([spec_float], instantiated at precision 53 and maximal exponent 1024),
    so that every operation, including [parseFloat] and the number to string
    conversion, evaluates inside the logic. *)

From Stdlib Require Import ZArith NArith List String Ascii Bool Lia.
From Stdlib Require Import SpecFloat DecimalString DecimalFacts DecimalN.
Import ListNotations.

Local Open Scope string_scope.
Local Open Scope Z_scope.

(** ** JavaScript numbers *)

Module Number.

Definition number := spec_float.

Definition prec : Z := 53.
Definition emax : Z := 1024.

Definition add : number -> number -> number := SFadd prec emax.
Definition sub : number -> number -> number := SFsub prec emax.
Definition mul : number -> number -> number := SFmul prec emax.
Definition div : number -> number -> number := SFdiv prec emax.

(** The comparisons [===], [>=] and [<=] on two numbers: every comparison
    with [NaN] is false, and the two zeros are equal. *)
Definition strict_eq (x y : number) : bool := SFeqb x y.
Definition leb (x y : number) : bool := SFleb x y.
Definition geb (x y : number) : bool := SFleb y x.

Definition NaN : number := S754_nan.
Definition zero : number := S754_zero false.

(** The number nearest to an integer (ties to even). *)
Definition of_Z (z : Z) : number := binary_normalize prec emax z 0 false.

Definition MAX_SAFE_INTEGER : number := of_Z (2 ^ 53 - 1).
Definition MIN_SAFE_INTEGER : number := of_Z (- (2 ^ 53 - 1)).

Definition is_finite (x : number) : bool :=
  match x with
  | S754_zero _ | S754_finite _ _ _ => true
  | S754_infinity _ | S754_nan => false
  end.

(** The number nearest to the decimal [m * 10 ^ e], negated when [neg].
    A non-negative [e] leaves an integer to round; a negative one leaves a
    quotient of two integers, rounded once by the division. *)
Definition of_decimal (neg : bool) (m : N) (e : Z) : number :=
  match m with
  | N0 => S754_zero neg
  | Npos p =>
      match e with
      | Zneg q => div (S754_finite neg p 0) (S754_finite false (10 ^ q) 0)
      | _ => binary_round prec emax neg (p * Z.to_pos (10 ^ e)) 0
      end
  end.

(** *** [parseFloat] *)

Definition digit_val (c : ascii) : option N :=
  let n := N_of_ascii c in
  if ((48 <=? n) && (n <=? 57))%N then Some (n - 48)%N else None.

Definition is_white (c : ascii) : bool :=
  let n := N_of_ascii c in
  ((9 <=? n) && (n <=? 13) || (n =? 32))%N.

Fixpoint skip_white (s : string) : string :=
  match s with
  | String c r => if is_white c then skip_white r else s
  | EmptyString => s
  end.

(** Consumes the longest run of decimal digits at the head of [s]; returns
    the accumulated value, the number of digits read, and the rest. *)
Fixpoint read_digits (s : string) (acc : N) (cnt : nat) : N * nat * string :=
  match s with
  | String c r =>
      match digit_val c with
      | Some d => read_digits r (10 * acc + d)%N (S cnt)
      | None => (acc, cnt, s)
      end
  | EmptyString => (acc, cnt, s)
  end.

Definition read_sign (s : string) : bool * string :=
  match s with
  | String "-" r => (true, r)
  | String "+" r => (false, r)
  | _ => (false, s)
  end.

(** The exponent part [e], [e+] or [e-] followed by at least one digit;
    a malformed exponent is not part of the literal and counts for 0. *)
Definition read_exponent (s : string) : Z :=
  match s with
  | String c r =>
      if (Ascii.eqb c "e" || Ascii.eqb c "E")%bool then
        let '(neg, r') := read_sign r in
        let '(v, cnt, _) := read_digits r' 0%N 0%nat in
        match cnt with
        | O => 0
        | S _ => if neg then - Z.of_N v else Z.of_N v
        end
      else 0
  | EmptyString => 0
  end.

(** The longest prefix that is an unsigned decimal literal, as mantissa and
    power of ten; [None] when no prefix is one. *)
Definition read_decimal (s : string) : option (N * Z) :=
  let '(ip, ni, r1) := read_digits s 0%N 0%nat in
  let '(m, nf, r2) :=
    match r1 with
    | String "." r => read_digits r ip 0%nat
    | _ => (ip, 0%nat, r1)
    end in
  match (ni + nf)%nat with
  | O => None
  | S _ => Some (m, read_exponent r2 - Z.of_nat nf)
  end.

Definition parseFloat (s : string) : number :=
  let '(neg, r) := read_sign (skip_white s) in
  if prefix "Infinity" r then S754_infinity neg
  else
    match read_decimal r with
    | Some (m, e) => of_decimal neg m e
    | None => NaN
    end.

(** *** Number to string (radix 10) *)

Definition digits (n : N) : string := NilEmpty.string_of_uint (N.to_uint n).

Fixpoint zeros (n : nat) : string :=
  match n with
  | O => ""
  | S k => String "0" (zeros k)
  end.

(** The first [n] characters of [s], and what follows them. *)
Fixpoint split_at (n : nat) (s : string) : string * string :=
  match n, s with
  | S k, String c r => let '(a, b) := split_at k r in (String c a, b)
  | _, _ => ("", s)
  end.

(** The exact value of a finite positive number [m * 2 ^ e] as a fraction. *)
Definition fraction (m : positive) (e : Z) : N * N :=
  match e with
  | Zneg q => (Npos m, Npos (2 ^ q))
  | _ => (Npos m * Z.to_N (2 ^ e), 1)%N
  end.

(** The least [j >= 1] with [den <= num * 10 ^ j], searched upwards. *)
Fixpoint scale_up (fuel : nat) (num den : N) (j : Z) : Z :=
  match fuel with
  | O => j
  | S f => if (den <=? num * 10)%N then j else scale_up f (num * 10)%N den (j + 1)
  end.

(** The decimal exponent [n] of [num / den]: [10 ^ (n - 1) <= num / den < 10 ^ n]. *)
Definition decimal_exponent (num den : N) : Z :=
  if (den <=? num)%N then Z.of_nat (String.length (digits (num / den)))
  else 1 - scale_up 400 num den 1.

(** [num / den * 10 ^ (k - n)] as a fraction: the value scaled so that its
    integer part has [k] digits. *)
Definition scaled (num den : N) (n k : Z) : N * N :=
  match k - n with
  | Zneg q => (num, den * Npos (10 ^ q))%N
  | d => (num * Z.to_N (10 ^ d), den)%N
  end.

(** Structural equality of two numbers. *)
Definition same (x y : number) : bool :=
  match x, y with
  | S754_zero a, S754_zero b => Bool.eqb a b
  | S754_infinity a, S754_infinity b => Bool.eqb a b
  | S754_nan, S754_nan => true
  | S754_finite a m e, S754_finite b m' e' =>
      Bool.eqb a b && Pos.eqb m m' && Z.eqb e e'
  | _, _ => false
  end.

(** A [k]-digit significand, carried to the next decade when it reaches
    [10 ^ k]. *)
Definition carry (n k : Z) (s : N) : N * Z :=
  if (s =? 10 ^ Z.to_N k)%N then ((10 ^ Z.to_N (k - 1))%N, n + 1) else (s, n).

(** The [k]-digit decimal for [x = num / den], if there is one: of the two
    [k]-digit decimals around [x], those that read back as [x]; when both
    do, the nearer one, and the even one on a tie. *)
Definition candidate (x : number) (num den : N) (n k : Z) : option (N * Z) :=
  let '(a, b) := scaled num den n k in
  let lo := (a / b)%N in
  let r := (a mod b)%N in
  let hi := (lo + 1)%N in
  let back s := same (of_decimal false s (n - k)) x in
  if (r =? 0)%N then (if back lo then Some (carry n k lo) else None)
  else
    match back lo, back hi with
    | true, true =>
        match (2 * r ?= b)%N with
        | Lt => Some (carry n k lo)
        | Gt => Some (carry n k hi)
        | Eq => Some (carry n k (if N.even lo then lo else hi))
        end
    | true, false => Some (carry n k lo)
    | false, true => Some (carry n k hi)
    | false, false => None
    end.

(** The first [k] of [ks] that has a candidate.  17 digits always suffice
    for a binary64 value; the 17-digit decimal above the value closes the
    search. *)
Fixpoint shortest (x : number) (num den : N) (n : Z) (ks : list Z) : N * Z :=
  match ks with
  | [] => let '(a, b) := scaled num den n 17 in carry n 17 (a / b + 1)%N
  | k :: ks' =>
      match candidate x num den n k with
      | Some r => r
      | None => shortest x num den n ks'
      end
  end.

Definition digit_counts : list Z :=
  [1; 2; 3; 4; 5; 6; 7; 8; 9; 10; 11; 12; 13; 14; 15; 16; 17].

(** The significand [s] and decimal exponent [n] of a finite positive
    number: [s * 10 ^ (n - k)] reads back as the number, with [k], the
    number of digits of [s], as small as possible. *)
Definition shortest_decimal (m : positive) (e : Z) : N * Z :=
  let '(num, den) := fraction m e in
  shortest (S754_finite false m e) num den (decimal_exponent num den) digit_counts.

(** The layout of the digits [ds] of the significand at decimal exponent
    [n]: plain digits up to 21 integer digits, leading zeros down to
    [1e-6], exponent notation beyond. *)
Definition layout (ds : string) (n : Z) : string :=
  let k := Z.of_nat (String.length ds) in
  if (k <=? n) && (n <=? 21) then ds ++ zeros (Z.to_nat (n - k))
  else if (0 <? n) && (n <=? 21) then
    let '(ip, fp) := split_at (Z.to_nat n) ds in ip ++ "." ++ fp
  else if (-6 <? n) && (n <=? 0) then "0." ++ zeros (Z.to_nat (- n)) ++ ds
  else
    let ex := (if n - 1 <? 0 then "-" else "+") ++ digits (Z.to_N (Z.abs (n - 1))) in
    match ds with
    | String c "" => String c ("e" ++ ex)
    | String c r => String c ("." ++ r ++ "e" ++ ex)
    | "" => "e" ++ ex
    end.

Definition toString_pos (m : positive) (e : Z) : string :=
  let '(s, n) := shortest_decimal m e in layout (digits s) n.

Definition toString (x : number) : string :=
  match x with
  | S754_nan => "NaN"
  | S754_zero _ => "0"
  | S754_infinity false => "Infinity"
  | S754_infinity true => "-Infinity"
  | S754_finite false m e => toString_pos m e
  | S754_finite true m e => "-" ++ toString_pos m e
  end.

End Number.

Import Number.

(** ** The logger *)

Inductive Level := Debug | Info | Warn | Error.

(** Modelled from the spec: the [Logger] class of [../logger] is not part of
    the sources.  The calculator only calls its four severity channels, and
    a call never changes the control flow or the other fields, so the logger
    is the list of the calls made so far, oldest first.  The visibility
    toggles decide which of them are shown and are left out. *)
Definition Logger := list (Level * string).

(** ** The calculator *)

Inductive Op := Add | Sub | Mul | Div.

(** [arg] and [lastOp] start as [null]: they are optional values. *)
Record Calculator := mkCalculator {
  lcd : string;
  arg : option number;
  lastOp : option Op;
  overwrite : bool;
  repeat : bool;
  calLog : Logger
}.

Definition set_lcd (v : string) (c : Calculator) : Calculator :=
  mkCalculator v (arg c) (lastOp c) (overwrite c) (repeat c) (calLog c).
Definition set_arg (v : option number) (c : Calculator) : Calculator :=
  mkCalculator (lcd c) v (lastOp c) (overwrite c) (repeat c) (calLog c).
Definition set_lastOp (v : option Op) (c : Calculator) : Calculator :=
  mkCalculator (lcd c) (arg c) v (overwrite c) (repeat c) (calLog c).
Definition set_overwrite (v : bool) (c : Calculator) : Calculator :=
  mkCalculator (lcd c) (arg c) (lastOp c) v (repeat c) (calLog c).
Definition set_repeat (v : bool) (c : Calculator) : Calculator :=
  mkCalculator (lcd c) (arg c) (lastOp c) (overwrite c) v (calLog c).
Definition log (l : Level) (msg : string) (c : Calculator) : Calculator :=
  mkCalculator (lcd c) (arg c) (lastOp c) (overwrite c) (repeat c)
    (calLog c ++ [(l, msg)])%list.

(** [constructor] *)
Definition init : Calculator :=
  mkCalculator "0" None None true false [].

(** A [null] operand of an arithmetic operator counts for [+0]. *)
Definition to_number (v : option number) : number :=
  match v with
  | Some x => x
  | None => zero
  end.

(** [this.arg === 0]: [null] is not strictly equal to a number. *)
Definition is_zero (v : option number) : bool :=
  match v with
  | Some x => strict_eq x zero
  | None => false
  end.

(** [this.arg === null] *)
Definition is_null {A : Type} (v : option A) : bool :=
  match v with
  | Some _ => false
  | None => true
  end.

(** [s.indexOf(c)] for a one-character [c]: the first position of [c], or -1. *)
Fixpoint indexOf (c : ascii) (s : string) : Z :=
  match s with
  | EmptyString => -1
  | String a r =>
      if Ascii.eqb a c then 0
      else match indexOf c r with
           | Zneg _ => -1
           | i => i + 1
           end
  end.

(** [s.charAt(0) === c] *)
Definition starts_with (c : ascii) (s : string) : bool :=
  match s with
  | String a _ => Ascii.eqb a c
  | EmptyString => false
  end.

(** [s.substring(1)] *)
Definition substring1 (s : string) : string :=
  match s with
  | String _ r => r
  | EmptyString => ""
  end.

Definition debugLog (c : Calculator) : Calculator :=
  log Debug "Button pressed." c.

Definition highOrLowWarningLog (c : Calculator) : Calculator :=
  if geb (parseFloat (lcd c)) MAX_SAFE_INTEGER then
    log Warn "Number is greater than the maximum number" c
  else if leb (parseFloat (lcd c)) MIN_SAFE_INTEGER then
    log Warn "Number is less than the maximum number" c
  else c.

Definition digit (x : number) (c : Calculator) : Calculator :=
  let c := debugLog c in
  if overwrite c then
    let c := set_lcd (toString x) c in
    let c := highOrLowWarningLog c in
    set_overwrite false c
  else
    let c := set_lcd (lcd c ++ toString x) c in
    highOrLowWarningLog c.

Definition decimal (c : Calculator) : Calculator :=
  let c := debugLog c in
  if overwrite c then
    let c := set_lcd "0." c in
    set_overwrite false c
  else if indexOf "." (lcd c) =? -1 then
    set_lcd (lcd c ++ ".") c
  else c.

(** The warning check follows the inner [if]/[else] and runs after either
    branch of it. *)
Definition negate (c : Calculator) : Calculator :=
  let c := debugLog c in
  if overwrite c then
    let c := set_lcd "0" c in
    set_overwrite false c
  else if negb (String.eqb (lcd c) "0") then
    let c :=
      if starts_with "-" (lcd c) then set_lcd (substring1 (lcd c)) c
      else set_lcd ("-" ++ lcd c) c in
    highOrLowWarningLog c
  else c.

Definition op (o : Op) (c : Calculator) : Calculator :=
  let c := debugLog c in
  let c := set_overwrite true c in
  let c :=
    if is_null (arg c) || repeat c then
      let c := set_lastOp (Some o) c in
      set_arg (Some (parseFloat (lcd c))) c
    else
      let c :=
        match lastOp c with
        | Some Add =>
            let c := set_lcd (toString (add (to_number (arg c)) (parseFloat (lcd c)))) c in
            highOrLowWarningLog c
        | Some Sub =>
            let c := set_lcd (toString (sub (to_number (arg c)) (parseFloat (lcd c)))) c in
            highOrLowWarningLog c
        | Some Mul =>
            let c := set_lcd (toString (mul (to_number (arg c)) (parseFloat (lcd c)))) c in
            highOrLowWarningLog c
        | Some Div =>
            let c :=
              if is_zero (arg c) then log Error "Divison by zero is not supported." c
              else c in
            let c := set_lcd (toString (div (to_number (arg c)) (parseFloat (lcd c)))) c in
            highOrLowWarningLog c
        | None => c
        end in
      let c := set_lastOp (Some o) c in
      set_arg (Some (parseFloat (lcd c))) c in
  set_repeat false c.

Definition equals (c : Calculator) : Calculator :=
  let c := debugLog c in
  let oldLcd := parseFloat (lcd c) in
  let c :=
    match lastOp c with
    | Some Add =>
        let c := set_lcd (toString (add (to_number (arg c)) (parseFloat (lcd c)))) c in
        highOrLowWarningLog c
    | Some Sub =>
        let c :=
          if repeat c then
            set_lcd (toString (sub (parseFloat (lcd c)) (to_number (arg c)))) c
          else
            set_lcd (toString (sub (to_number (arg c)) (parseFloat (lcd c)))) c in
        highOrLowWarningLog c
    | Some Mul =>
        let c := set_lcd (toString (mul (to_number (arg c)) (parseFloat (lcd c)))) c in
        highOrLowWarningLog c
    | Some Div =>
        if is_zero (arg c) then
          log Error "Divison by zero is not supported." c
        else
          let c := set_lcd (toString (div (to_number (arg c)) (parseFloat (lcd c)))) c in
          highOrLowWarningLog c
    | None => c
    end in
  let c := if negb (repeat c) then set_arg (Some oldLcd) c else c in
  let c := set_repeat true c in
  let c := set_overwrite true c in
  log Info "Overwrite is now enabled." c.

Definition clear (c : Calculator) : Calculator :=
  let c := debugLog c in
  let c :=
    if overwrite c then
      let c := set_arg None c in
      let c := set_lastOp None c in
      set_repeat false c
    else c in
  let c := set_lcd "0" c in
  let c := set_overwrite true c in
  let c := log Info "Overwrite is now enabled." c in
  highOrLowWarningLog c.

Definition square (c : Calculator) : Calculator :=
  let c := debugLog c in
  let c := set_lcd (toString (mul (parseFloat (lcd c)) (parseFloat (lcd c)))) c in
  highOrLowWarningLog c.

Definition percent (c : Calculator) : Calculator :=
  let c := debugLog c in
  let c := set_lcd (toString (div (parseFloat (lcd c)) (of_Z 100))) c in
  highOrLowWarningLog c.

(** ** Button presses *)

(** The keys of the calculator; a digit key carries its digit. *)
Inductive Button :=
  | BDigit (d : nat)
  | BDecimal
  | BNegate
  | BOp (o : Op)
  | BEquals
  | BClear
  | BSquare
  | BPercent.

Definition press (c : Calculator) (b : Button) : Calculator :=
  match b with
  | BDigit d => digit (of_Z (Z.of_nat d)) c
  | BDecimal => decimal c
  | BNegate => negate c
  | BOp o => op o c
  | BEquals => equals c
  | BClear => clear c
  | BSquare => square c
  | BPercent => percent c
  end.

Definition run (bs : list Button) (c : Calculator) : Calculator :=
  fold_left press bs c.

(** A digit key carries one of the digits 0 to 9. *)
Definition valid_button (b : Button) : Prop :=
  match b with
  | BDigit d => (d <= 9)%nat
  | _ => True
  end.

(** The states reached from the initial one by pressing keys. *)
Inductive reachable : Calculator -> Prop :=
  | reach_init : reachable init
  | reach_press c b : reachable c -> valid_button b -> reachable (press c b).

(** ** Vocabulary of the statements *)

(** The error [op] and [equals] log for a division. *)
Definition division_error : Level * string :=
  (Error, "Divison by zero is not supported.").

(** The character of a digit 0 to 9. *)
Definition digit_char (d : nat) : ascii := ascii_of_nat (48 + d).

(** The digits typed, in order, as one string. *)
Fixpoint typed (ds : list nat) : string :=
  match ds with
  | [] => ""
  | d :: r => String (digit_char d) (typed r)
  end.

(** The number of occurrences of a character. *)
Fixpoint count (c : ascii) (s : string) : nat :=
  match s with
  | EmptyString => O
  | String a r => if Ascii.eqb a c then S (count c r) else count c r
  end.

(** The characters 0 to 9. *)
Definition is_digit (c : ascii) : bool :=
  match digit_val c with
  | Some _ => true
  | None => false
  end.

(** Strings of digits only, and strings that start with a digit. *)
Fixpoint all_digits (s : string) : bool :=
  match s with
  | EmptyString => true
  | String a r => is_digit a && all_digits r
  end.

Definition head_digit (s : string) : bool :=
  match s with
  | String a _ => is_digit a
  | EmptyString => false
  end.

(** A display is not empty, and a leading minus sign is followed by
    something that is neither empty, nor another minus sign, nor a lone 0. *)
Definition display_ok (s : string) : bool :=
  match s with
  | EmptyString => false
  | String c r =>
      if Ascii.eqb c "-" then
        negb (String.eqb r "") && negb (starts_with "-" r) && negb (String.eqb r "0")
      else true
  end.

(** What holds of [arg], [lastOp] and [repeat] in every state the keys
    lead to: an operator is never stored without an operand, and repeat
    mode is never entered without one. *)
Definition operand_invariant (c : Calculator) : Prop :=
  (lastOp c <> None -> arg c <> None) /\ (repeat c = true -> arg c <> None).

(** What the display satisfies in every state the keys lead to. *)
Definition display_invariant (c : Calculator) : Prop :=
  display_ok (lcd c) = true /\ (count "." (lcd c) <= 1)%nat.

(** Strings of digits and decimal points only. *)
Fixpoint numeric_body (s : string) : bool :=
  match s with
  | EmptyString => true
  | String a r => (is_digit a || Ascii.eqb a ".") && numeric_body r
  end.

(** A non-empty string of digits with at most one decimal point, after an
    optional minus sign. *)
Definition numeric_syntax (s : string) : bool :=
  let body := if starts_with "-" s then substring1 s else s in
  negb (String.eqb s "") && numeric_body body && (count "." body <=? 1)%nat.

(** A numeric string that reads as a finite number. *)
Definition finite_numeric (s : string) : bool :=
  numeric_syntax s && is_finite (parseFloat s).

(** The five fields of the calculator, without the logger. *)
Definition observable (c : Calculator) :
  string * option number * option Op * bool * bool :=
  (lcd c, arg c, lastOp c, overwrite c, repeat c).

(** The arithmetic of the four cases of the [switch] in [op] and [equals]. *)
Definition apply_op (o : Op) (a b : number) : number :=
  match o with
  | Add => add a b
  | Sub => sub a b
  | Mul => mul a b
  | Div => div a b
  end.

(** The opposite of a number. *)
Definition opp (x : number) : number := SFopp x.

Definition Level_eqb (a b : Level) : bool :=
  match a, b with
  | Debug, Debug | Info, Info | Warn, Warn | Error, Error => true
  | _, _ => false
  end.

(** The number of calls made to one channel of the logger. *)
Fixpoint count_level (l : Level) (g : Logger) : nat :=
  match g with
  | [] => O
  | (l', _) :: r => if Level_eqb l' l then S (count_level l r) else count_level l r
  end.

(** The keys whose method announces overwrite mode on the info channel. *)
Definition announces_overwrite (b : Button) : bool :=
  match b with
  | BEquals | BClear => true
  | _ => false
  end.

(** The states and keys in which the division error is logged: a pending
    division with a zero operand, on [=] and on an operator key that
    combines (neither the first operand nor after [=]). *)
Definition logs_division_error (c : Calculator) (b : Button) : bool :=
  let pending :=
    match lastOp c with
    | Some Div => is_zero (arg c)
    | _ => false
    end in
  match b with
  | BOp _ => negb (is_null (arg c) || repeat c) && pending
  | BEquals => pending
  | _ => false
  end.

(** The integer a run of digit keys denotes, continuing from [acc]. *)
Definition value_from (acc : N) (ds : list nat) : N :=
  fold_left (fun a d => (10 * a + N.of_nat d)%N) ds acc.

Definition digits_value (ds : list nat) : Z := Z.of_N (value_from 0 ds).

(** Strings whose first character is neither white space nor a sign. *)
Definition unsigned_head (s : string) : bool :=
  match s with
  | String a _ =>
      negb (is_white a) && negb (Ascii.eqb a "+") && negb (Ascii.eqb a "-")
  | EmptyString => false
  end.

(** Displays that are such a string, or one after a single minus sign. *)
Definition sign_ok (s : string) : bool :=
  unsigned_head s || (starts_with "-" s && unsigned_head (substring1 s)).

(** Outside repeat mode an operand is never stored without an operator. *)
Definition operator_invariant (c : Calculator) : Prop :=
  repeat c = false -> arg c <> None -> lastOp c <> None.

(** * Properties *)

(** ** The number model on known values *)

Example parseFloat_tenth :
  parseFloat "0.1" = S754_finite false 7205759403792794 (-56).
Proof. vm_compute. reflexivity. Qed.

Example parseFloat_prefix :
  map parseFloat ["12abc"; "5."; ".5"; "1e+"; "-Infinity5"; "."; ""]
  = [of_Z 12; of_Z 5; div (of_Z 1) (of_Z 2); of_Z 1; S754_infinity true; NaN; NaN].
Proof. vm_compute. reflexivity. Qed.

Example toString_known :
  map toString
    [add (parseFloat "0.1") (parseFloat "0.2"); div (of_Z 1) (of_Z 3);
     mul (parseFloat "4.35") (of_Z 100); of_Z (2 ^ 60); parseFloat "1e21";
     parseFloat "0.000001"; parseFloat "1e-7"; parseFloat "5e-324";
     S754_zero true; div (of_Z 0) (of_Z 0); div (of_Z (-1)) (of_Z 0)]
  = ["0.30000000000000004"; "0.3333333333333333"; "434.99999999999994";
     "1152921504606847000"; "1e+21"; "0.000001"; "1e-7"; "5e-324";
     "0"; "NaN"; "-Infinity"].
Proof. vm_compute. reflexivity. Qed.

(** [x === 0] holds of the two zeros only. *)
Lemma strict_eq_zero x : strict_eq x zero = true <-> exists s, x = S754_zero s.
Proof.
  split.
  - destruct x as [s|[|]| |[|] m e]; try discriminate. now exists s.
  - intros [s ->]. reflexivity.
Qed.

(** ** The logger calls leave the five fields alone *)

Ltac warning_cases :=
  unfold highOrLowWarningLog;
  destruct (geb _ _); [|destruct (leb _ _)]; reflexivity.

Lemma highOrLow_lcd c : lcd (highOrLowWarningLog c) = lcd c.
Proof. warning_cases. Qed.

Lemma highOrLow_arg c : arg (highOrLowWarningLog c) = arg c.
Proof. warning_cases. Qed.

Lemma highOrLow_lastOp c : lastOp (highOrLowWarningLog c) = lastOp c.
Proof. warning_cases. Qed.

Lemma highOrLow_overwrite c : overwrite (highOrLowWarningLog c) = overwrite c.
Proof. warning_cases. Qed.

Lemma highOrLow_repeat c : repeat (highOrLowWarningLog c) = repeat c.
Proof. warning_cases. Qed.

Create Rewrite HintDb calc.
#[local] Hint Rewrite highOrLow_lcd highOrLow_arg highOrLow_lastOp
  highOrLow_overwrite highOrLow_repeat : calc.

(** Unfolds the setters and projections of a goal, leaving the number
    operations folded. *)
Ltac fields :=
  cbn [lcd arg lastOp overwrite repeat calLog set_lcd set_arg set_lastOp
       set_overwrite set_repeat log debugLog is_null is_zero to_number
       negb orb andb] in *.

Ltac calc := repeat (autorewrite with calc in *; fields).

Ltac split_ifs :=
  repeat match goal with
         | |- context [if ?b then _ else _] => destruct b
         end.

Ltac crunch :=
  calc; split_ifs; calc; try discriminate; try reflexivity; try congruence.

(** ** Reaching states *)

Lemma reachable_run bs : forall c,
  Forall valid_button bs -> reachable c -> reachable (run bs c).
Proof.
  induction bs as [|b bs IH]; intros c Hbs Hc; [exact Hc|].
  inversion Hbs; subst. apply IH; [assumption|].
  now apply reach_press.
Qed.

(** ** [square] and [percent] *)

(** C9: [square] shows the string of the square of the displayed value and
    [percent] the string of the displayed value divided by 100; both leave
    [arg], [lastOp], [overwrite] and [repeat] as they were. *)
Theorem square_percent_frame (c : Calculator) :
  (lcd (square c) = toString (mul (parseFloat (lcd c)) (parseFloat (lcd c)))
   /\ arg (square c) = arg c /\ lastOp (square c) = lastOp c
   /\ overwrite (square c) = overwrite c /\ repeat (square c) = repeat c)
  /\
  (lcd (percent c) = toString (div (parseFloat (lcd c)) (of_Z 100))
   /\ arg (percent c) = arg c /\ lastOp (percent c) = lastOp c
   /\ overwrite (percent c) = overwrite c /\ repeat (percent c) = repeat c).
Proof.
  unfold square, percent. calc. repeat split.
Qed.

(** ** [clear] *)

Lemma clear_display c : lcd (clear c) = "0" /\ overwrite (clear c) = true.
Proof. unfold clear. calc. destruct (overwrite c); split; reflexivity. Qed.

Lemma clear_append_mode c :
  overwrite c = false ->
  arg (clear c) = arg c /\ lastOp (clear c) = lastOp c /\ repeat (clear c) = repeat c.
Proof. intros H. unfold clear. calc. rewrite H. repeat split. Qed.

Lemma clear_overwrite_mode c :
  overwrite c = true ->
  arg (clear c) = None /\ lastOp (clear c) = None /\ repeat (clear c) = false.
Proof. intros H. unfold clear. calc. rewrite H. repeat split. Qed.

(** C4, as the code has it: a press of [clear] in append mode only resets
    the display to 0 and enables overwrite mode, and leaves [arg], [lastOp]
    and [repeat] intact; a press in overwrite mode, such as a second
    consecutive press, also resets [arg] and [lastOp] to null and [repeat]
    to false. *)
Theorem clear_once_twice (c : Calculator) :
  lcd (clear c) = "0" /\ overwrite (clear c) = true
  /\ (overwrite c = false ->
      arg (clear c) = arg c /\ lastOp (clear c) = lastOp c
      /\ repeat (clear c) = repeat c)
  /\ (overwrite c = true ->
      arg (clear c) = None /\ lastOp (clear c) = None /\ repeat (clear c) = false)
  /\ (lcd (clear (clear c)) = "0" /\ overwrite (clear (clear c)) = true
      /\ arg (clear (clear c)) = None /\ lastOp (clear (clear c)) = None
      /\ repeat (clear (clear c)) = false).
Proof.
  destruct (clear_display c) as [Hl Ho].
  destruct (clear_display (clear c)) as [Hl2 Ho2].
  destruct (clear_overwrite_mode (clear c) Ho) as (Ha2 & Hp2 & Hr2).
  repeat apply conj; try assumption.
  - apply clear_append_mode.
  - apply clear_overwrite_mode.
Qed.

Lemma clear_once_twice_witness :
  let c := run [BDigit 2; BOp Add; BDigit 4] init in
  overwrite c = false /\ arg (clear c) = arg c /\ lastOp (clear c) = Some Add
  /\ arg (clear (clear c)) = None.
Proof.
  intros c.
  assert (Hw : overwrite c = false) by (vm_compute; reflexivity).
  destruct (clear_once_twice c) as (_ & _ & Happ & _ & _ & _ & Harg & _).
  destruct (Happ Hw) as (Ha & Hl & _).
  repeat apply conj; [exact Hw | exact Ha | | exact Harg].
  rewrite Hl. vm_compute. reflexivity.
Defined.

(** C4 as stated fails: after 2 and +, the calculator is in overwrite mode
    with a pending operand, and a single press of [clear] drops it. *)
Lemma clear_single_press_counterexample :
  ~ (forall c : Calculator,
       arg (clear c) = arg c /\ lastOp (clear c) = lastOp c
       /\ repeat (clear c) = repeat c).
Proof.
  intros H.
  destruct (H (run [BDigit 2; BOp Add] init)) as (Ha & _).
  vm_compute in Ha. discriminate Ha.
Qed.

(** ** [equals] *)

Lemma equals_flags c : repeat (equals c) = true /\ overwrite (equals c) = true.
Proof. unfold equals. split; reflexivity. Qed.

Lemma equals_lastOp c : lastOp (equals c) = lastOp c.
Proof.
  destruct c as [l a o w r g]. unfold equals. fields.
  destruct o as [[]|], r; calc; try reflexivity.
  all: destruct a as [x|]; fields; try destruct (strict_eq x zero);
    calc; reflexivity.
Qed.

(** Without a pending operator the [switch] matches no case. *)
Lemma equals_no_operator c :
  lastOp c = None ->
  lcd (equals c) = lcd c
  /\ arg (equals c) = (if repeat c then arg c else Some (parseFloat (lcd c))).
Proof.
  intros H. unfold equals. fields. rewrite H. fields.
  destruct (repeat c); split; reflexivity.
Qed.

(** C10, as the code has it: with no pending operator, [equals] leaves the
    display and the absent operator as they are and sets [repeat] and
    [overwrite]; it stores the displayed value in [arg] only when [repeat]
    was false, and leaves [arg] alone when [repeat] was already true. *)
Theorem equals_without_operator (c : Calculator) :
  lastOp c = None ->
  lcd (equals c) = lcd c
  /\ repeat (equals c) = true
  /\ overwrite (equals c) = true
  /\ lastOp (equals c) = None
  /\ (repeat c = false -> arg (equals c) = Some (parseFloat (lcd c)))
  /\ (repeat c = true -> arg (equals c) = arg c).
Proof.
  intros H.
  destruct (equals_no_operator c H) as [Hl Ha].
  destruct (equals_flags c) as [Hr Ho].
  repeat apply conj; try assumption.
  - rewrite equals_lastOp. exact H.
  - intros E. rewrite Ha, E. reflexivity.
  - intros E. rewrite Ha, E. reflexivity.
Qed.

Lemma equals_without_operator_witness :
  lcd (equals init) = "0" /\ repeat (equals init) = true
  /\ arg (equals init) = Some zero /\ lastOp (equals init) = None.
Proof.
  assert (Hop : lastOp init = None) by reflexivity.
  assert (Hr : repeat init = false) by reflexivity.
  destruct (equals_without_operator init Hop) as (Hl & Hr' & _ & Ho & Ha & _).
  repeat apply conj; [exact Hl | exact Hr' | | exact Ho].
  rewrite (Ha Hr). vm_compute. reflexivity.
Defined.

(** C10 as stated fails in repeat mode: after =, 5 the operator is still
    absent and the display reads 5, but a second = keeps the operand 0 stored
    by the first one. *)
Lemma equals_without_operator_counterexample :
  ~ (forall c : Calculator,
       lastOp c = None -> arg (equals c) = Some (parseFloat (lcd c))).
Proof.
  intros H.
  assert (Hop : lastOp (run [BEquals; BDigit 5] init) = None)
    by (vm_compute; reflexivity).
  specialize (H _ Hop).
  vm_compute in H. discriminate H.
Qed.

(** ** The pending operand and operator *)

Lemma op_operand o c : arg (op o c) <> None /\ lastOp (op o c) = Some o
  /\ repeat (op o c) = false /\ overwrite (op o c) = true.
Proof.
  destruct c as [l a p w r g]. unfold op. fields.
  destruct a as [x|], r, p as [[]|]; repeat apply conj; crunch.
Qed.

Lemma operand_invariant_press c b :
  operand_invariant c -> operand_invariant (press c b).
Proof.
  unfold operand_invariant.
  destruct b; cbn [press]; intros [H1 H2].
  - destruct c as [l a p w r g]. unfold digit. fields. destruct w; crunch; now split.
  - destruct c as [l a p w r g]. unfold decimal. fields. destruct w; crunch; now split.
  - destruct c as [l a p w r g]. unfold negate. fields. destruct w; crunch; now split.
  - destruct (op_operand o c) as (Ha & _). now split.
  - destruct c as [l a p w r g]. unfold equals. fields.
    destruct r, a as [x|], p as [[]|]; crunch; split; intros; try discriminate;
      try (apply H1; discriminate); try (apply H2; reflexivity).
  - destruct c as [l a p w r g]. unfold clear. fields.
    destruct w; crunch; split; intros; try discriminate; auto.
  - destruct c as [l a p w r g]. unfold square. crunch. now split.
  - destruct c as [l a p w r g]. unfold percent. crunch. now split.
Qed.

(** C3, as the code has it: in every state reached from the initial one, a
    present [lastOp] comes with a present [arg], and [repeat] being true
    implies a present [arg].  (The operand can be present without an
    operator.) *)
Theorem operator_implies_operand (c : Calculator) :
  reachable c ->
  (lastOp c <> None -> arg c <> None) /\ (repeat c = true -> arg c <> None).
Proof.
  intros H. change (operand_invariant c).
  induction H as [|c b _ IH _].
  - split; intros E; [now elim E | discriminate E].
  - now apply operand_invariant_press.
Qed.

Lemma operator_implies_operand_witness :
  let c := run [BDigit 3; BOp Add; BDigit 5; BEquals] init in
  reachable c /\ arg c <> None.
Proof.
  intros c.
  assert (R : reachable c).
  { apply reachable_run; [|apply reach_init].
    repeat constructor. }
  split; [exact R|].
  apply (operator_implies_operand c R). vm_compute. reflexivity.
Defined.

(** C3 as stated fails: = pressed in the initial state stores the operand 0
    and enters repeat mode while no operator is stored. *)
Lemma operand_operator_counterexample :
  ~ (forall c : Calculator,
       reachable c ->
       ((arg c = None /\ lastOp c = None) \/ (arg c <> None /\ lastOp c <> None))
       /\ (repeat c = true -> arg c <> None /\ lastOp c <> None)).
Proof.
  intros H.
  assert (R : reachable (press init BEquals)) by (apply reach_press; [apply reach_init | exact I]).
  destruct (H _ R) as [_ Hr].
  assert (E : repeat (press init BEquals) = true) by (vm_compute; reflexivity).
  destruct (Hr E) as [_ Hop]. apply Hop. vm_compute. reflexivity.
Qed.

(** ** Chained operators *)

(** C6: from the initial state, 2 + 4 + leaves the display reading 6, with
    operand 6 and operator Add pending, in overwrite mode for the third
    operand. *)
Theorem chained_add_collapses :
  let c := run [BDigit 2; BOp Add; BDigit 4; BOp Add] init in
  lcd c = "6" /\ arg c = Some (of_Z 6) /\ lastOp c = Some Add
  /\ overwrite c = true /\ repeat c = false.
Proof. vm_compute. repeat split. Qed.

(** The repeated = of the class documentation: 3 + 5 = shows 8, and a
    second = adds 5 again. *)
Example repeated_equals_adds_again :
  lcd (run [BDigit 3; BOp Add; BDigit 5; BEquals] init) = "8"
  /\ lcd (run [BDigit 3; BOp Add; BDigit 5; BEquals; BEquals] init) = "13".
Proof. vm_compute. split; reflexivity. Qed.

(** With Sub the second = subtracts the stored operand again. *)
Example repeated_equals_subtracts_again :
  lcd (run [BDigit 8; BOp Sub; BDigit 2; BEquals; BEquals] init) = "4".
Proof. vm_compute. reflexivity. Qed.

(** ** Division in [equals] and in [op] *)

Lemma highOrLow_log_incl e c :
  In e (calLog c) -> In e (calLog (highOrLowWarningLog c)).
Proof.
  unfold highOrLowWarningLog. split_ifs; cbn [calLog log]; intros H;
    try apply in_or_app; auto.
Qed.

(** [op] with a pending division divides whatever the operand is, after
    logging the error when the operand is zero. *)
Lemma op_div_divides o c a :
  lastOp c = Some Div -> arg c = Some a -> repeat c = false ->
  lcd (op o c) = toString (div a (parseFloat (lcd c)))
  /\ (strict_eq a zero = true -> In division_error (calLog (op o c))).
Proof.
  destruct c as [l x p w r g]. cbn [lcd arg lastOp repeat].
  intros -> -> ->. unfold op. fields. split.
  - crunch.
  - intros ->. cbn [calLog set_repeat set_arg set_lastOp].
    apply highOrLow_log_incl. cbn [calLog set_lcd log].
    apply in_or_app. right. now left.
Qed.

(** C1, as the code has it: [equals] with a pending division whose operand
    [arg] is zero logs the error and leaves the [switch] at once, so the
    display keeps its contents and nothing is divided; the rest of [equals]
    runs as usual.  [op] in the same state logs the error and still
    divides. *)
Theorem equals_div_zero_operand (c : Calculator) (a : number) :
  lastOp c = Some Div -> arg c = Some a -> strict_eq a zero = true ->
  lcd (equals c) = lcd c
  /\ calLog (equals c) =
       (calLog c ++ [(Debug, "Button pressed."); division_error;
                     (Info, "Overwrite is now enabled.")])%list
  /\ arg (equals c) = (if repeat c then Some a else Some (parseFloat (lcd c)))
  /\ repeat (equals c) = true /\ overwrite (equals c) = true
  /\ (repeat c = false ->
      forall o, lcd (op o c) = toString (div a (parseFloat (lcd c)))
                /\ In division_error (calLog (op o c))).
Proof.
  intros Hop Harg Hz.
  assert (E : lcd (equals c) = lcd c
    /\ calLog (equals c) =
       (calLog c ++ [(Debug, "Button pressed."); division_error;
                     (Info, "Overwrite is now enabled.")])%list
    /\ arg (equals c) = (if repeat c then Some a else Some (parseFloat (lcd c)))).
  { destruct c as [l x p w r g]. cbn [lcd arg lastOp repeat calLog] in *.
    subst x p. unfold equals. fields. rewrite Hz.
    destruct r; fields; repeat split;
      repeat rewrite <- app_assoc; reflexivity. }
  destruct E as (E1 & E2 & E3).
  repeat apply conj; try assumption; try reflexivity.
  intros Hr o. destruct (op_div_divides o c a Hop Harg Hr) as [H1 H2].
  split; [exact H1 | exact (H2 Hz)].
Qed.

Lemma equals_div_zero_operand_witness :
  let c := run [BDigit 0; BOp Div; BDigit 5] init in
  lcd (equals c) = "5" /\ lcd (op Add c) = "0".
Proof.
  intros c.
  assert (Hop : lastOp c = Some Div) by (vm_compute; reflexivity).
  assert (Harg : arg c = Some zero) by (vm_compute; reflexivity).
  assert (Hrep : repeat c = false) by (vm_compute; reflexivity).
  destruct (equals_div_zero_operand c zero Hop Harg eq_refl)
    as (Hl & _ & _ & _ & _ & Hdiv).
  destruct (Hdiv Hrep Add) as [Ho _].
  rewrite Hl, Ho. vm_compute. split; reflexivity.
Defined.

(** C1 as stated fails: after 0, /, 5 the operand is 0 and the display reads
    5; = leaves 5 on the display, which is the string of neither quotient,
    whereas an operator key shows the quotient 0. *)
Lemma equals_div_zero_counterexample :
  let c := run [BDigit 0; BOp Div; BDigit 5] init in
  lastOp c = Some Div /\ is_zero (arg c) = true
  /\ lcd (equals c) = "5"
  /\ toString (div (to_number (arg c)) (parseFloat (lcd c))) = "0"
  /\ toString (div (parseFloat (lcd c)) (to_number (arg c))) = "Infinity"
  /\ lcd (op Add c) = "0"
  /\ ~ (forall c' : Calculator,
          lastOp c' = Some Div -> is_zero (arg c') = true ->
          lcd (equals c') = toString (div (to_number (arg c')) (parseFloat (lcd c')))
          \/ lcd (equals c') = toString (div (parseFloat (lcd c')) (to_number (arg c')))).
Proof.
  intros c.
  assert (Hop : lastOp c = Some Div) by (vm_compute; reflexivity).
  assert (Hz : is_zero (arg c) = true) by (vm_compute; reflexivity).
  repeat apply conj;
    try match goal with |- _ = _ => vm_compute; reflexivity end.
  intros H. specialize (H c Hop Hz).
  vm_compute in H. destruct H as [H|H]; discriminate H.
Qed.

(** ** The order of the operands in repeat mode *)

Lemma add_comm x y : add x y = add y x.
Proof.
  unfold add, SFadd.
  destruct x as [sx|sx| |sx mx ex], y as [sy|sy| |sy my ey];
    try reflexivity; try (destruct sx, sy; reflexivity).
  cbv zeta. rewrite (Z.min_comm ey ex). f_equal. apply Z.add_comm.
Qed.

Lemma mul_comm x y : mul x y = mul y x.
Proof.
  unfold mul, SFmul.
  destruct x as [sx|sx| |sx mx ex], y as [sy|sy| |sy my ey];
    try reflexivity; try (destruct sx, sy; reflexivity).
  rewrite (xorb_comm sy sx), (Pos.mul_comm my mx), (Z.add_comm ey ex).
  reflexivity.
Qed.

(** In repeat mode [equals] subtracts the stored operand from the displayed
    value. *)
Lemma equals_repeat_sub c :
  repeat c = true -> lastOp c = Some Sub ->
  lcd (equals c) = toString (sub (parseFloat (lcd c)) (to_number (arg c))).
Proof.
  destruct c as [l x p w r g]. cbn [lcd arg lastOp repeat].
  intros -> ->. unfold equals. crunch.
Qed.

(** For Add and Mul the order of the operands does not matter. *)
Lemma equals_add_mul_symmetric c :
  (lastOp c = Some Add ->
   lcd (equals c) = toString (add (parseFloat (lcd c)) (to_number (arg c)))
   /\ lcd (equals c) = toString (add (to_number (arg c)) (parseFloat (lcd c))))
  /\
  (lastOp c = Some Mul ->
   lcd (equals c) = toString (mul (parseFloat (lcd c)) (to_number (arg c)))
   /\ lcd (equals c) = toString (mul (to_number (arg c)) (parseFloat (lcd c)))).
Proof.
  destruct c as [l x p w r g]. cbn [lcd arg lastOp repeat].
  split; intros ->; unfold equals; fields.
  - rewrite (add_comm (parseFloat l)). destruct r; crunch; now split.
  - rewrite (mul_comm (parseFloat l)). destruct r; crunch; now split.
Qed.

(** The Div case of [equals] has no branch on [repeat]: it divides the
    stored operand by the displayed value in either mode. *)
Lemma equals_div_order c :
  lastOp c = Some Div -> is_zero (arg c) = false ->
  lcd (equals c) = toString (div (to_number (arg c)) (parseFloat (lcd c))).
Proof.
  destruct c as [l x p w r g]. cbn [lcd arg lastOp repeat].
  intros -> Hz. unfold equals. fields. rewrite Hz. destruct r; crunch.
Qed.

(** C2, the Div case on the code: after 8 / 2 = the display reads 4 and the
    stored second operand is 2, in repeat mode; the next = shows 0.5, the
    operand divided by the display, where the display divided by the operand
    is 2. *)
Theorem equals_repeat_div_divides_operand_by_display :
  let c := run [BDigit 8; BOp Div; BDigit 2; BEquals] init in
  repeat c = true /\ lastOp c = Some Div
  /\ lcd c = "4" /\ arg c = Some (of_Z 2)
  /\ lcd (equals c) = "0.5"
  /\ toString (div (parseFloat (lcd c)) (to_number (arg c))) = "2"
  /\ lcd (equals c) <> toString (div (parseFloat (lcd c)) (to_number (arg c))).
Proof.
  vm_compute. repeat apply conj; try reflexivity. discriminate.
Qed.

(** ** Typing digits *)

Lemma append_assoc (s t u : string) : (s ++ t) ++ u = s ++ (t ++ u).
Proof. induction s as [|a s IH]; cbn; [reflexivity | now rewrite IH]. Qed.

Lemma append_nil_r (s : string) : s ++ "" = s.
Proof. induction s as [|a s IH]; cbn; [reflexivity | now rewrite IH]. Qed.

Lemma toString_digit d :
  (d <= 9)%nat -> toString (of_Z (Z.of_nat d)) = String (digit_char d) "".
Proof.
  intros H.
  do 10 (destruct d as [|d]; [vm_compute; reflexivity|]).
  lia.
Qed.

Lemma digit_overwrite_mode x c :
  overwrite c = true ->
  lcd (digit x c) = toString x /\ overwrite (digit x c) = false.
Proof.
  destruct c as [l a p w r g]. cbn [overwrite]. intros ->.
  unfold digit. crunch. now split.
Qed.

Lemma digit_append_mode x c :
  overwrite c = false ->
  lcd (digit x c) = lcd c ++ toString x /\ overwrite (digit x c) = false.
Proof.
  destruct c as [l a p w r g]. cbn [overwrite]. intros ->.
  unfold digit. crunch. now split.
Qed.

Lemma digits_append ds : forall c,
  Forall (fun d => (d <= 9)%nat) ds -> overwrite c = false ->
  lcd (run (map BDigit ds) c) = lcd c ++ typed ds.
Proof.
  induction ds as [|d ds IH]; intros c Hds Hw; cbn [map run fold_left typed].
  - now rewrite append_nil_r.
  - inversion Hds as [|? ? Hd Hds']; subst.
    destruct (digit_append_mode (of_Z (Z.of_nat d)) c Hw) as [Hl Hw'].
    change (fold_left press (map BDigit ds) (press c (BDigit d)))
      with (run (map BDigit ds) (digit (of_Z (Z.of_nat d)) c)).
    rewrite (IH _ Hds' Hw'), Hl, (toString_digit d Hd), append_assoc.
    reflexivity.
Qed.

(** C7: digits 0 to 9 typed in overwrite mode leave on the display the
    digits typed, in order: the first one replaces the display, whatever it
    showed, and the others are appended. *)
Theorem digits_typed_in_overwrite_mode (ds : list nat) (c : Calculator) :
  ds <> [] ->
  Forall (fun d => (d <= 9)%nat) ds ->
  overwrite c = true ->
  lcd (run (map BDigit ds) c) = typed ds.
Proof.
  intros Hne Hds Hw.
  destruct ds as [|d ds]; [now elim Hne|].
  inversion Hds as [|? ? Hd Hds']; subst.
  destruct (digit_overwrite_mode (of_Z (Z.of_nat d)) c Hw) as [Hl Hw'].
  cbn [map run fold_left typed].
  change (fold_left press (map BDigit ds) (press c (BDigit d)))
    with (run (map BDigit ds) (digit (of_Z (Z.of_nat d)) c)).
  rewrite (digits_append ds _ Hds' Hw'), Hl, (toString_digit d Hd).
  reflexivity.
Qed.

Lemma digits_typed_in_overwrite_mode_witness :
  lcd (run (map BDigit [7; 0; 3]%nat) (run [BDigit 2; BOp Add] init)) = "703".
Proof.
  assert (Hw : overwrite (run [BDigit 2; BOp Add] init) = true)
    by (vm_compute; reflexivity).
  rewrite (digits_typed_in_overwrite_mode [7; 0; 3]%nat _); 
    [reflexivity | discriminate | repeat constructor | exact Hw].
Defined.

(** ** The shape of the display *)

(** *** Strings *)

Lemma count_app c s t : count c (s ++ t) = (count c s + count c t)%nat.
Proof.
  induction s as [|a s IH]; cbn; [reflexivity|].
  destruct (Ascii.eqb a c); now rewrite IH.
Qed.

Lemma count_all_digits c s :
  is_digit c = false -> all_digits s = true -> count c s = O.
Proof.
  intros Hc. induction s as [|a s IH]; cbn; [reflexivity|].
  intros H. apply andb_prop in H. destruct H as [Ha Hs].
  destruct (Ascii.eqb_spec a c) as [->|_]; [congruence | now apply IH].
Qed.

Lemma all_digits_app s t :
  all_digits s = true -> all_digits t = true -> all_digits (s ++ t) = true.
Proof.
  induction s as [|a s IH]; cbn; [trivial|].
  intros H Ht. apply andb_prop in H. destruct H as [Ha Hs].
  now rewrite Ha, IH.
Qed.

Lemma all_digits_zeros n : all_digits (zeros n) = true.
Proof. induction n as [|n IH]; cbn; [reflexivity | exact IH]. Qed.

Lemma all_digits_uint u : all_digits (NilEmpty.string_of_uint u) = true.
Proof. induction u; cbn; trivial. Qed.

Lemma all_digits_digits n : all_digits (digits n) = true.
Proof. apply all_digits_uint. Qed.

Lemma string_of_uint_inj u v :
  NilEmpty.string_of_uint u = NilEmpty.string_of_uint v -> u = v.
Proof.
  intros H. apply (f_equal NilEmpty.uint_of_string) in H.
  rewrite !NilEmpty.usu in H. congruence.
Qed.

Lemma digits_nonempty n : digits n <> "".
Proof.
  unfold digits. intros H.
  apply (string_of_uint_inj _ Decimal.Nil) in H.
  rewrite <- (DecimalN.Unsigned.of_to n) in H.
  rewrite DecimalN.Unsigned.to_of in H.
  now apply unorm_nonnil in H.
Qed.

Lemma digits_zero n : digits n = "0" -> n = 0%N.
Proof.
  unfold digits. intros H.
  apply (string_of_uint_inj _ (N.to_uint 0)) in H.
  now apply DecimalN.Unsigned.to_uint_inj.
Qed.

Lemma split_at_app n : forall s,
  fst (split_at n s) ++ snd (split_at n s) = s.
Proof.
  induction n as [|n IH]; intros [|a s]; cbn; try reflexivity.
  specialize (IH s). destruct (split_at n s) as [x y]. cbn in *. now rewrite IH.
Qed.

Lemma split_at_head n a s :
  fst (split_at (S n) (String a s)) = String a (fst (split_at n s)).
Proof. cbn. now destruct (split_at n s). Qed.

(** *** The layout of a number *)

Lemma dot_not_digit : is_digit "." = false.
Proof. reflexivity. Qed.

Lemma exponent_dots (sg : string) (n : N) :
  count "." sg = O -> count "." ("e" ++ sg ++ digits n) = O.
Proof.
  intros H. change ("e" ++ sg ++ digits n) with (String "e" (sg ++ digits n)).
  cbn [count]. change (Ascii.eqb "e" ".") with false. cbv iota.
  rewrite count_app, H.
  now rewrite (count_all_digits "." _ dot_not_digit (all_digits_digits n)).
Qed.

Lemma layout_dots ds n :
  all_digits ds = true -> (count "." (layout ds n) <= 1)%nat.
Proof.
  intros Hd. pose proof (count_all_digits "." ds dot_not_digit Hd) as H0.
  unfold layout.
  destruct (_ && _).
  { rewrite count_app, H0.
    rewrite (count_all_digits "." _ dot_not_digit (all_digits_zeros _)). lia. }
  destruct (_ && _).
  { pose proof (split_at_app (Z.to_nat n) ds) as E.
    destruct (split_at (Z.to_nat n) ds) as [ip fp]. cbn [fst snd] in E.
    rewrite <- E, count_app in H0.
    rewrite !count_app. cbn [count]. change (Ascii.eqb "." ".") with true.
    cbv iota. lia. }
  destruct (_ && _).
  { change ("0." ++ zeros (Z.to_nat (- n)) ++ ds)
      with (String "0" (String "." (zeros (Z.to_nat (- n)) ++ ds))).
    cbn [count]. change (Ascii.eqb "0" ".") with false.
    change (Ascii.eqb "." ".") with true. cbv iota.
    rewrite count_app, H0.
    rewrite (count_all_digits "." _ dot_not_digit (all_digits_zeros _)). lia. }
  set (sg := if n - 1 <? 0 then "-" else "+").
  assert (Hsg : count "." sg = O) by (unfold sg; destruct (n - 1 <? 0); reflexivity).
  pose proof (exponent_dots sg (Z.to_N (Z.abs (n - 1))) Hsg) as He.
  destruct ds as [|c r].
  - rewrite He. lia.
  - cbn [all_digits] in Hd. apply andb_prop in Hd. destruct Hd as [Hc Hr].
    assert (Hcd : Ascii.eqb c "." = false).
    { destruct (Ascii.eqb_spec c ".") as [->|]; [discriminate Hc | reflexivity]. }
    destruct r as [|c' r'].
    + cbn [count]. rewrite Hcd, He. lia.
    + cbn [count]. rewrite Hcd.
      change ("." ++ String c' r' ++ "e" ++ sg ++ digits (Z.to_N (Z.abs (n - 1))))
        with (String "." (String c' r' ++ "e" ++ sg ++ digits (Z.to_N (Z.abs (n - 1))))).
      cbn [count]. change (Ascii.eqb "." ".") with true. cbv iota.
      rewrite count_app, He.
      rewrite (count_all_digits "." _ dot_not_digit Hr). lia.
Qed.

Lemma layout_head ds n :
  all_digits ds = true -> ds <> "" -> head_digit (layout ds n) = true.
Proof.
  intros Hd Hne. destruct ds as [|c r]; [now elim Hne|].
  cbn [all_digits] in Hd. apply andb_prop in Hd. destruct Hd as [Hc Hr].
  unfold layout.
  destruct (_ && _); [exact Hc|].
  destruct (_ && _) eqn:Hn.
  { apply andb_prop in Hn. destruct Hn as [Hn _]. apply Z.ltb_lt in Hn.
    destruct (Z.to_nat n) as [|k] eqn:Hk; [lia|].
    pose proof (split_at_head k c r) as E.
    destruct (split_at (S k) (String c r)) as [ip fp]. cbn [fst] in E.
    rewrite E. exact Hc. }
  clear Hn. destruct (_ && _); [reflexivity|].
  destruct r; exact Hc.
Qed.

Lemma layout_not_zero ds n :
  ds <> "" -> ds <> "0" -> layout ds n <> "0".
Proof.
  intros Hne Hz. destruct ds as [|c r]; [now elim Hne|].
  unfold layout.
  destruct (_ && _).
  { cbn. intros E. injection E as -> E.
    destruct r; [now elim Hz | discriminate E]. }
  destruct (_ && _).
  { destruct (split_at (Z.to_nat n) (String c r)) as [[|a [|a' ip]] fp];
      cbn; discriminate. }
  destruct (_ && _); [discriminate|].
  destruct r; cbn; discriminate.
Qed.

(** *** The significand is not zero *)

Lemma carry_nonzero n k s : s <> 0%N -> fst (carry n k s) <> 0%N.
Proof.
  intros H. unfold carry. destruct (_ =? _)%N; cbn [fst]; [|exact H].
  apply N.pow_nonzero. discriminate.
Qed.

Lemma candidate_nonzero m e num den n k r :
  candidate (S754_finite false m e) num den n k = Some r -> fst r <> 0%N.
Proof.
  unfold candidate. destruct (scaled num den n k) as [a b]. cbv zeta.
  assert (Hback : forall s, same (of_decimal false s (n - k)) (S754_finite false m e) = true ->
                            s <> 0%N).
  { intros s H ->. discriminate H. }
  assert (Hhi : (a / b + 1 <> 0)%N)
    by (rewrite N.add_1_r; apply N.neq_succ_0).
  destruct (a mod b =? 0)%N.
  - destruct (same _ _) eqn:E; [|discriminate].
    intros [= <-]. apply carry_nonzero. now apply Hback.
  - destruct (same (of_decimal false (a / b) (n - k)) _) eqn:E1,
             (same (of_decimal false (a / b + 1) (n - k)) _) eqn:E2;
      try discriminate.
    + destruct (2 * (a mod b) ?= b)%N; intros [= <-]; apply carry_nonzero;
        try destruct (N.even (a / b)); auto.
    + intros [= <-]. apply carry_nonzero. auto.
    + intros [= <-]. now apply carry_nonzero.
Qed.

Lemma shortest_nonzero m e num den n ks :
  fst (shortest (S754_finite false m e) num den n ks) <> 0%N.
Proof.
  induction ks as [|k ks IH]; cbn [shortest].
  - destruct (scaled num den n 17) as [a b]. apply carry_nonzero.
    rewrite N.add_1_r. apply N.neq_succ_0.
  - destruct (candidate _ num den n k) as [r|] eqn:E; [|exact IH].
    now apply candidate_nonzero in E.
Qed.

(** *** The string of a number *)

Lemma toString_pos_head m e : head_digit (toString_pos m e) = true.
Proof.
  unfold toString_pos. destruct (shortest_decimal m e) as [s n].
  apply layout_head; [apply all_digits_digits | apply digits_nonempty].
Qed.

Lemma toString_pos_not_zero m e : toString_pos m e <> "0".
Proof.
  unfold toString_pos.
  pose proof (shortest_nonzero m e) as H. unfold shortest_decimal.
  destruct (fraction m e) as [num den].
  specialize (H num den (decimal_exponent num den) digit_counts).
  destruct (shortest _ num den _ digit_counts) as [s n]. cbn [fst] in H.
  apply layout_not_zero; [apply digits_nonempty|].
  intros E. now apply digits_zero in E.
Qed.

Lemma toString_pos_dots m e : (count "." (toString_pos m e) <= 1)%nat.
Proof.
  unfold toString_pos. destruct (shortest_decimal m e) as [s n].
  apply layout_dots, all_digits_digits.
Qed.

Lemma toString_dots x : (count "." (toString x) <= 1)%nat.
Proof.
  destruct x as [sg|[|]| |[|] m e]; cbn [toString].
  - cbn. lia.
  - cbn. lia.
  - cbn. lia.
  - cbn. lia.
  - change ("-" ++ toString_pos m e) with (String "-" (toString_pos m e)).
    cbn [count]. change (Ascii.eqb "-" ".") with false. cbv iota.
    apply toString_pos_dots.
  - apply toString_pos_dots.
Qed.

(** *** Displays the keys can produce *)

Lemma head_digit_not_minus s : head_digit s = true -> starts_with "-" s = false.
Proof.
  destruct s as [|c r]; cbn; [reflexivity|]. intros H.
  destruct (Ascii.eqb_spec c "-") as [->|]; [discriminate H | reflexivity].
Qed.

Lemma head_digit_ok s : head_digit s = true -> display_ok s = true.
Proof.
  intros H. pose proof (head_digit_not_minus s H) as Hm.
  destruct s as [|c r]; [discriminate H|]. cbn in *. now rewrite Hm.
Qed.

Lemma toString_ok x : display_ok (toString x) = true.
Proof.
  destruct x as [sg|[|]| |[|] m e]; cbn [toString].
  - reflexivity.
  - reflexivity.
  - reflexivity.
  - reflexivity.
  - change ("-" ++ toString_pos m e) with (String "-" (toString_pos m e)).
    cbn [display_ok]. change (Ascii.eqb "-" "-") with true. cbv iota.
    pose proof (toString_pos_head m e) as Hh.
    pose proof (toString_pos_not_zero m e) as Hz.
    rewrite (head_digit_not_minus _ Hh).
    destruct (String.eqb_spec (toString_pos m e) "") as [E|_];
      [rewrite E in Hh; discriminate Hh|].
    destruct (String.eqb_spec (toString_pos m e) "0") as [E|_];
      [now elim Hz | reflexivity].
  - apply head_digit_ok, toString_pos_head.
Qed.

Lemma display_ok_app s t : display_ok s = true -> display_ok (s ++ t) = true.
Proof.
  destruct s as [|c r]; [discriminate|]. cbn [display_ok append].
  destruct (Ascii.eqb c "-"); [|trivial].
  destruct r as [|a r]; [discriminate|]. cbn [append starts_with String.eqb negb andb].
  destruct (Ascii.eqb a "-"); [discriminate|]. cbn [negb andb].
  destruct (Ascii.eqb a "0"); [|trivial].
  destruct r; [discriminate|]. reflexivity.
Qed.

Lemma display_ok_strip s :
  display_ok s = true -> starts_with "-" s = true ->
  display_ok (substring1 s) = true /\ starts_with "-" (substring1 s) = false
  /\ substring1 s <> "0" /\ s = String "-" (substring1 s).
Proof.
  destruct s as [|c r]; [discriminate|]. cbn [display_ok starts_with substring1].
  intros H Hc. rewrite Hc in H. apply Ascii.eqb_eq in Hc. subst c.
  apply andb_prop in H. destruct H as [H H0].
  apply andb_prop in H. destruct H as [He Hm].
  apply negb_true_iff in He, Hm, H0.
  apply String.eqb_neq in H0.
  repeat apply conj; try assumption; try reflexivity.
  destruct r as [|a r]; [discriminate He|].
  cbn [starts_with] in Hm. cbn [display_ok]. now rewrite Hm.
Qed.

Lemma display_ok_prepend s :
  display_ok s = true -> starts_with "-" s = false -> s <> "0" ->
  display_ok ("-" ++ s) = true.
Proof.
  intros H Hm Hz. change ("-" ++ s) with (String "-" s).
  cbn [display_ok]. change (Ascii.eqb "-" "-") with true. cbv iota.
  rewrite Hm. destruct s as [|a r]; [discriminate H|].
  apply String.eqb_neq in Hz. now rewrite Hz.
Qed.

Lemma indexOf_range c s : indexOf c s = -1 \/ 0 <= indexOf c s.
Proof.
  induction s as [|a r IH]; cbn [indexOf]; [now left|].
  destruct (Ascii.eqb a c); [right; lia|].
  destruct (indexOf c r); [right; lia | right; lia | now left].
Qed.

Lemma indexOf_absent c s : indexOf c s = -1 -> count c s = O.
Proof.
  induction s as [|a r IH]; cbn [indexOf count]; [reflexivity|].
  destruct (Ascii.eqb a c); [discriminate|].
  destruct (indexOf_range c r) as [E|E].
  - intros _. now apply IH.
  - destruct (indexOf c r); try lia.
Qed.

Lemma count_substring1 c s : (count c (substring1 s) <= count c s)%nat.
Proof. destruct s as [|a r]; cbn; [lia|]. destruct (Ascii.eqb a c); lia. Qed.

Lemma toString_display x :
  display_ok (toString x) = true /\ (count "." (toString x) <= 1)%nat.
Proof. split; [apply toString_ok | apply toString_dots]. Qed.

Lemma digit_char_is_digit d : (d <= 9)%nat -> is_digit (digit_char d) = true.
Proof.
  intros H. do 10 (destruct d as [|d]; [reflexivity|]). lia.
Qed.

Lemma display_invariant_digit d c :
  (d <= 9)%nat -> display_invariant c ->
  display_invariant (digit (of_Z (Z.of_nat d)) c).
Proof.
  intros Hd. destruct c as [l a p w r g].
  unfold display_invariant, digit. fields. intros [Hok Hdots].
  destruct w; calc; [apply toString_display|].
  rewrite (toString_digit d Hd). split; [now apply display_ok_app|].
  rewrite count_app. cbn [count].
  pose proof (digit_char_is_digit d Hd) as Hc.
  destruct (Ascii.eqb_spec (digit_char d) ".") as [E|_];
    [rewrite E in Hc; discriminate Hc | lia].
Qed.

Lemma display_invariant_decimal c :
  display_invariant c -> display_invariant (decimal c).
Proof.
  destruct c as [l a p w r g].
  unfold display_invariant, decimal. fields. intros [Hok Hdots].
  destruct w; fields; [split; [reflexivity | cbn; lia]|].
  destruct (indexOf "." l =? -1) eqn:E; fields; [|now split].
  apply Z.eqb_eq, indexOf_absent in E.
  split; [now apply display_ok_app|].
  rewrite count_app, E. cbn. lia.
Qed.

Lemma display_invariant_negate c :
  display_invariant c -> display_invariant (negate c).
Proof.
  destruct c as [l a p w r g].
  unfold display_invariant, negate. fields. intros [Hok Hdots].
  destruct w; fields; [split; [reflexivity | cbn; lia]|].
  destruct (String.eqb_spec l "0") as [E|E]; fields; [now split|].
  destruct (starts_with "-" l) eqn:Hm; calc.
  - destruct (display_ok_strip l Hok Hm) as (H1 & _).
    split; [exact H1|]. pose proof (count_substring1 "." l). lia.
  - split; [now apply display_ok_prepend|].
    change ("-" ++ l) with (String "-" l). cbn [count].
    change (Ascii.eqb "-" ".") with false. exact Hdots.
Qed.

Lemma display_invariant_press c b :
  valid_button b -> display_invariant c -> display_invariant (press c b).
Proof.
  destruct b; cbn [press valid_button]; intros Hb Hc.
  - now apply display_invariant_digit.
  - now apply display_invariant_decimal.
  - now apply display_invariant_negate.
  - destruct c as [l a p w r g]. unfold display_invariant, op in *. fields.
    destruct a as [x|], r, p as [[]|]; crunch; try assumption;
      apply toString_display.
  - destruct c as [l a p w r g]. unfold display_invariant, equals in *. fields.
    destruct a as [x|], r, p as [[]|]; crunch; try assumption;
      apply toString_display.
  - destruct c as [l a p w r g]. unfold display_invariant, clear in *. fields.
    destruct w; calc; split; try reflexivity; cbn; lia.
  - destruct c as [l a p w r g]. unfold display_invariant, square in *. calc.
    apply toString_display.
  - destruct c as [l a p w r g]. unfold display_invariant, percent in *. calc.
    apply toString_display.
Qed.

Lemma reachable_display c : reachable c -> display_invariant c.
Proof.
  induction 1 as [|c b _ IH Hb].
  - split; [reflexivity | cbn; lia].
  - now apply display_invariant_press.
Qed.

(** ** The display as a number *)

(** C5, as the code has it: in every state reached from the initial one the
    display is not empty and holds at most one decimal point.  (It need not
    be a plain decimal numeral: a quotient by zero is displayed as it
    is.) *)
Theorem display_nonempty_one_point (c : Calculator) :
  reachable c -> lcd c <> "" /\ (count "." (lcd c) <= 1)%nat.
Proof.
  intros H. destruct (reachable_display c H) as [Hok Hdots].
  split; [|exact Hdots].
  intros E. rewrite E in Hok. discriminate Hok.
Qed.

Lemma display_nonempty_one_point_witness :
  let c := run [BDigit 1; BDecimal; BDecimal; BDigit 5; BNegate] init in
  lcd c <> "" /\ (count "." (lcd c) <= 1)%nat.
Proof.
  intros c. apply display_nonempty_one_point.
  apply reachable_run; [|apply reach_init].
  repeat constructor.
Defined.

(** C5 as stated fails: 1 / 0 = is a sequence of key presses, and leaves
    [Infinity] on the display, which is not a decimal numeral and does not
    read as a finite number. *)
Lemma display_finite_counterexample :
  let c := run [BDigit 1; BOp Div; BDigit 0; BEquals] init in
  reachable c /\ lcd c = "Infinity"
  /\ numeric_syntax (lcd c) = false
  /\ is_finite (parseFloat (lcd c)) = false
  /\ ~ (forall c' : Calculator, reachable c' -> finite_numeric (lcd c') = true).
Proof.
  intros c.
  assert (R : reachable c).
  { apply reachable_run; [|apply reach_init]. repeat constructor. }
  assert (E : finite_numeric (lcd c) = false) by (vm_compute; reflexivity).
  repeat apply conj;
    try match goal with |- _ = _ => vm_compute; reflexivity end.
  - exact R.
  - intros H. rewrite (H c R) in E. discriminate E.
Qed.

(** ** [negate] *)

Lemma negate_twice_ok c :
  display_ok (lcd c) = true -> overwrite c = false -> lcd c <> "0" ->
  lcd (negate (negate c)) = lcd c.
Proof.
  destruct c as [l a p w r g]. cbn [lcd overwrite]. intros Hok -> Hz.
  unfold negate at 2. fields.
  destruct (String.eqb_spec l "0") as [E|_]; [now elim Hz|]. fields.
  destruct (starts_with "-" l) eqn:Hm.
  - destruct (display_ok_strip l Hok Hm) as (_ & Hm' & Hz' & El).
    unfold negate. calc.
    apply String.eqb_neq in Hz'. rewrite Hz'. fields. rewrite Hm'. calc.
    now rewrite El at 2.
  - unfold negate. calc.
    change ("-" ++ l) with (String "-" l).
    destruct (String.eqb_spec (String "-" l) "0") as [E|_]; [discriminate E|].
    fields. cbn [starts_with]. change (Ascii.eqb "-" "-") with true.
    cbv iota. calc. reflexivity.
Qed.

Lemma negate_zero c : lcd c = "0" -> lcd (negate c) = "0".
Proof.
  destruct c as [l a p w r g]. cbn [lcd]. intros ->.
  destruct w; reflexivity.
Qed.

(** C8: in every state of the calculator, that is every state reached from
    the initial one, in append mode with a display other than 0, two
    presses of [negate] restore the display; and one press leaves a display
    of exactly 0 unchanged. *)
Theorem negate_involution :
  (forall c : Calculator,
     reachable c -> overwrite c = false -> lcd c <> "0" ->
     lcd (negate (negate c)) = lcd c)
  /\ (forall c : Calculator, lcd c = "0" -> lcd (negate c) = "0").
Proof.
  split.
  - intros c R. apply negate_twice_ok. now apply reachable_display.
  - exact negate_zero.
Qed.

Lemma negate_involution_witness :
  let c := run [BDigit 4; BDecimal; BDigit 2; BNegate] init in
  lcd (negate (negate c)) = "-4.2".
Proof.
  intros c.
  assert (R : reachable c).
  { apply reachable_run; [|apply reach_init]. repeat constructor. }
  assert (Hw : overwrite c = false) by (vm_compute; reflexivity).
  assert (Hz : lcd c <> "0") by (vm_compute; discriminate).
  rewrite (proj1 negate_involution c R Hw Hz). vm_compute. reflexivity.
Defined.

(** The hypothesis of [negate_twice_ok] is needed: on a display of [-0],
    which no key sequence produces ([reachable_display]) and only a host
    writing the field could set, the first press strips the sign and the
    second finds a display of 0 and does nothing. *)
Lemma negate_twice_outside_reachable :
  ~ (forall c : Calculator,
       overwrite c = false -> lcd c <> "0" ->
       lcd (negate (negate c)) = lcd c).
Proof.
  intros H.
  specialize (H (mkCalculator "-0" None None false false []) eq_refl).
  cbn [lcd] in H.
  assert (E : lcd (negate (negate (mkCalculator "-0" None None false false []))) = "0")
    by (vm_compute; reflexivity).
  rewrite E in H.
  assert (F : "0" = "-0") by (apply H; discriminate).
  discriminate F.
Qed.

(** * Further properties of the methods *)

(** ** The logger never steers the calculator *)

Lemma observable_highOrLow c :
  observable (highOrLowWarningLog c) = observable c.
Proof. unfold observable. calc. reflexivity. Qed.

Lemma observable_eq c1 c2 :
  observable c1 = observable c2 <->
  lcd c1 = lcd c2 /\ arg c1 = arg c2 /\ lastOp c1 = lastOp c2
  /\ overwrite c1 = overwrite c2 /\ repeat c1 = repeat c2.
Proof.
  unfold observable. split.
  - intros [= -> -> -> -> ->]. repeat split.
  - intros (-> & -> & -> & -> & ->). reflexivity.
Qed.

Lemma press_observable c1 c2 b :
  observable c1 = observable c2 ->
  observable (press c1 b) = observable (press c2 b).
Proof.
  destruct c1 as [l a p w r g1], c2 as [l2 a2 p2 w2 r2 g2].
  unfold observable at 1 2. cbn [lcd arg lastOp overwrite repeat].
  intros [= <- <- <- <- <-].
  destruct b; cbn [press];
    unfold observable, digit, decimal, negate, op, equals, clear, square, percent;
    fields.
  - destruct w; calc; reflexivity.
  - destruct w; fields; [reflexivity|].
    destruct (indexOf "." l =? -1); reflexivity.
  - destruct w; fields; [reflexivity|].
    destruct (String.eqb l "0"); fields; [reflexivity|].
    destruct (starts_with "-" l); calc; reflexivity.
  - destruct a as [x|], r, p as [[]|]; fields; calc; try reflexivity.
    destruct (strict_eq x zero); calc; reflexivity.
  - destruct a as [x|], r, p as [[]|]; fields; calc; try reflexivity;
      destruct (strict_eq x zero); calc; reflexivity.
  - destruct w; calc; reflexivity.
  - calc. reflexivity.
  - calc. reflexivity.
Qed.

Lemma run_observable bs : forall c1 c2,
  observable c1 = observable c2 ->
  observable (run bs c1) = observable (run bs c2).
Proof.
  induction bs as [|b bs IH]; intros c1 c2 H; [exact H|].
  cbn [run fold_left]. apply IH. now apply press_observable.
Qed.

(** X1: Two calculators that differ in their logs only still differ in their
    logs only after the same keys. *)
Theorem run_ignores_log (bs : list Button) (c1 c2 : Calculator) :
  observable c1 = observable c2 ->
  observable (run bs c1) = observable (run bs c2).
Proof. apply run_observable. Qed.

Lemma run_ignores_log_witness :
  observable (run [BEquals; BEquals] (run [BDigit 7; BOp Mul; BDigit 6] init))
  = observable (run [BEquals; BEquals]
                  (mkCalculator "6" (Some (of_Z 7)) (Some Mul) false false [])).
Proof.
  apply run_ignores_log. vm_compute. reflexivity.
Defined.

(** ** Two presses of [clear] *)

(** X2: Whatever the state, after two presses of [clear] every key sequence
    leaves the same five fields as it does from the initial state. *)
Theorem clear_twice_restarts (c : Calculator) (bs : list Button) :
  observable (run bs (run [BClear; BClear] c)) = observable (run bs init).
Proof.
  apply run_observable. cbn [run fold_left press].
  destruct (clear_display (clear c)) as [Hl Ho].
  destruct (clear_display c) as [_ Ho1].
  destruct (clear_overwrite_mode (clear c) Ho1) as (Ha & Hp & Hr).
  apply observable_eq. repeat split; assumption.
Qed.

(** ** What each key logs *)

Lemma count_level_app l g h :
  count_level l (g ++ h)%list = (count_level l g + count_level l h)%nat.
Proof.
  induction g as [|[l' m] g IH]; cbn [count_level app]; [reflexivity|].
  destruct (Level_eqb l' l); rewrite IH; reflexivity.
Qed.

(** Splits a method into its paths and counts the new calls of each. *)
Ltac count_calls :=
  unfold digit, decimal, negate, op, equals, clear, square, percent,
    highOrLowWarningLog;
  fields; split_ifs; fields;
  rewrite ?count_level_app; cbn [count_level Level_eqb]; lia.

(** Every key press makes exactly one call to the debug channel. *)
Lemma press_debug c b :
  count_level Debug (calLog (press c b)) = S (count_level Debug (calLog c)).
Proof.
  destruct c as [l a p w r g], b; cbn [press].
  - count_calls.
  - count_calls.
  - count_calls.
  - destruct a as [x|], r, p as [[]|]; count_calls.
  - destruct a as [x|], r, p as [[]|]; count_calls.
  - count_calls.
  - count_calls.
  - count_calls.
Qed.

(** X3: The debug channel counts the keys pressed. *)
Theorem debug_counts_keys (bs : list Button) (c : Calculator) :
  count_level Debug (calLog (run bs c))
  = (count_level Debug (calLog c) + List.length bs)%nat.
Proof.
  revert c. induction bs as [|b bs IH]; intros c; cbn [run fold_left List.length].
  - lia.
  - change (fold_left press bs (press c b)) with (run bs (press c b)).
    rewrite IH, press_debug. lia.
Qed.

Lemma press_info c b :
  count_level Info (calLog (press c b))
  = (count_level Info (calLog c) + if announces_overwrite b then 1 else 0)%nat.
Proof.
  destruct c as [l a p w r g], b; cbn [press announces_overwrite].
  - count_calls.
  - count_calls.
  - count_calls.
  - destruct a as [x|], r, p as [[]|]; count_calls.
  - destruct a as [x|], r, p as [[]|]; count_calls.
  - count_calls.
  - count_calls.
  - count_calls.
Qed.

(** X4: The info channel is called once by each [=] and each [clear], and by no
    other key. *)
Theorem info_counts_equals_and_clear (bs : list Button) (c : Calculator) :
  count_level Info (calLog (run bs c))
  = (count_level Info (calLog c)
     + List.length (filter announces_overwrite bs))%nat.
Proof.
  revert c. induction bs as [|b bs IH]; intros c; cbn [run fold_left filter].
  - cbn. lia.
  - change (fold_left press bs (press c b)) with (run bs (press c b)).
    rewrite IH, press_info. destruct (announces_overwrite b); cbn [List.length]; lia.
Qed.

Lemma press_error c b :
  count_level Error (calLog (press c b))
  = (count_level Error (calLog c) + if logs_division_error c b then 1 else 0)%nat.
Proof.
  destruct c as [l a p w r g], b; cbn [press logs_division_error]; fields.
  - count_calls.
  - count_calls.
  - count_calls.
  - destruct a as [x|], r, p as [[]|]; fields;
      try destruct (strict_eq x zero) eqn:E; count_calls.
  - destruct a as [x|], r, p as [[]|]; fields;
      try destruct (strict_eq x zero) eqn:E; count_calls.
  - count_calls.
  - count_calls.
  - count_calls.
Qed.

(** X5: A key press logs the division error once in the states and on the keys
    of [logs_division_error], and never otherwise. *)
Theorem error_logged_on_zero_operand (c : Calculator) (b : Button) :
  count_level Error (calLog (press c b))
  = (count_level Error (calLog c) + if logs_division_error c b then 1 else 0)%nat.
Proof. apply press_error. Qed.

(** X6: A key press makes at most one call to the warning channel. *)
Theorem one_warning_per_key (c : Calculator) (b : Button) :
  (count_level Warn (calLog c) <= count_level Warn (calLog (press c b))
   <= S (count_level Warn (calLog c)))%nat.
Proof.
  destruct c as [l a p w r g], b; cbn [press].
  - count_calls.
  - count_calls.
  - count_calls.
  - destruct a as [x|], r, p as [[]|]; count_calls.
  - destruct a as [x|], r, p as [[]|]; count_calls.
  - count_calls.
  - count_calls.
  - count_calls.
Qed.

(** ** Division by a zero display *)

Lemma finite_not_zero s m e : strict_eq (S754_finite s m e) zero = false.
Proof. destruct s; reflexivity. Qed.

Lemma toString_infinity b :
  toString (S754_infinity b) = if b then "-Infinity" else "Infinity".
Proof. destruct b; reflexivity. Qed.

(** X7: The check before a division looks at the stored operand, not at the
    divisor: a finite non-zero operand divided by a display that reads zero
    shows an infinity, and no error is logged, on [=] as on an operator
    key. *)
Theorem zero_divisor_unlogged (c : Calculator) (s : bool) (m : positive)
    (e : Z) (s' : bool) :
  lastOp c = Some Div -> arg c = Some (S754_finite s m e) -> repeat c = false ->
  parseFloat (lcd c) = S754_zero s' ->
  (lcd (equals c) = (if xorb s s' then "-Infinity" else "Infinity")
   /\ count_level Error (calLog (equals c)) = count_level Error (calLog c))
  /\ (forall o,
        lcd (op o c) = (if xorb s s' then "-Infinity" else "Infinity")
        /\ count_level Error (calLog (op o c)) = count_level Error (calLog c)).
Proof.
  intros Hop Harg Hrep Hz. split; [|intros o]; split.
  - rewrite (equals_div_order c Hop); rewrite Harg; cbn [is_zero to_number];
      [|apply finite_not_zero].
    rewrite Hz. apply toString_infinity.
  - pose proof (press_error c BEquals) as H. cbn [press logs_division_error] in H.
    rewrite Hop, Harg in H. cbn [is_zero] in H.
    rewrite finite_not_zero in H. lia.
  - destruct (op_div_divides o c _ Hop Harg Hrep) as [H _].
    rewrite H, Hz. apply toString_infinity.
  - pose proof (press_error c (BOp o)) as H. cbn [press logs_division_error] in H.
    rewrite Hop, Harg in H. cbn [is_zero] in H.
    rewrite finite_not_zero, andb_false_r in H. lia.
Qed.

Lemma zero_divisor_unlogged_witness :
  let c := run [BDigit 7; BOp Div; BDigit 0] init in
  lcd (equals c) = "Infinity"
  /\ count_level Error (calLog (equals c)) = count_level Error (calLog c).
Proof.
  intros c.
  assert (Hop : lastOp c = Some Div) by (vm_compute; reflexivity).
  assert (Harg : arg c = Some (S754_finite false 7881299347898368 (-50)))
    by (vm_compute; reflexivity).
  assert (Hrep : repeat c = false) by (vm_compute; reflexivity).
  assert (Hz : parseFloat (lcd c) = S754_zero false) by (vm_compute; reflexivity).
  exact (proj1 (zero_divisor_unlogged c _ _ _ _ Hop Harg Hrep Hz)).
Defined.

(** ** The decimal point *)

Lemma indexOf_app_present c s : indexOf c (s ++ String c "") <> -1.
Proof.
  induction s as [|a s IH]; cbn [append indexOf].
  - rewrite Ascii.eqb_refl. discriminate.
  - destruct (Ascii.eqb a c); [discriminate|].
    destruct (indexOf_range c (s ++ String c "")) as [E|E]; [now elim IH|].
    destruct (indexOf c (s ++ String c "")); lia.
Qed.

(** X8: A second press of the decimal key changes none of the five fields,
    whatever the state before the first press; and after a press the
    display holds a decimal point. *)
Theorem decimal_twice (c : Calculator) :
  observable (decimal (decimal c)) = observable (decimal c)
  /\ indexOf "." (lcd (decimal c)) <> -1.
Proof.
  destruct c as [l a p w r g]. destruct w.
  - split; [reflexivity | discriminate].
  - assert (E1 : decimal (mkCalculator l a p false r g)
                 = set_lcd (if indexOf "." l =? -1 then l ++ "." else l)
                     (debugLog (mkCalculator l a p false r g))).
    { unfold decimal. fields. destruct (indexOf "." l =? -1); reflexivity. }
    rewrite E1. fields.
    assert (E2 : (indexOf "." (if indexOf "." l =? -1 then l ++ "." else l) =? -1)
                 = false).
    { destruct (indexOf "." l =? -1) eqn:E; [|exact E].
      apply Z.eqb_neq, indexOf_app_present. }
    split; [|now apply Z.eqb_neq].
    unfold decimal. fields. rewrite E2. reflexivity.
Qed.

(** ** Overwrite mode after each key *)

Lemma press_overwrite c b :
  overwrite (press c b) =
  match b with
  | BDigit _ | BDecimal | BNegate => false
  | BOp _ | BEquals | BClear => true
  | BSquare | BPercent => overwrite c
  end.
Proof.
  destruct c as [l a p w r g], b; cbn [press].
  - unfold digit. fields. destruct w; calc; reflexivity.
  - unfold decimal. fields. destruct w; fields; [reflexivity|].
    destruct (indexOf "." l =? -1); reflexivity.
  - unfold negate. fields. destruct w; fields; [reflexivity|].
    destruct (String.eqb l "0"); fields; [reflexivity|].
    destruct (starts_with "-" l); calc; reflexivity.
  - apply op_operand.
  - apply equals_flags.
  - apply clear_display.
  - unfold square. calc. reflexivity.
  - unfold percent. calc. reflexivity.
Qed.

(** X9: Digit, decimal and sign keys always leave the calculator in append
    mode; operator keys, [=] and [clear] always leave it in overwrite mode;
    [square] and [percent] keep the mode they find. *)
Theorem overwrite_after_key (c : Calculator) (b : Button) :
  overwrite (press c b) =
  match b with
  | BDigit _ | BDecimal | BNegate => false
  | BOp _ | BEquals | BClear => true
  | BSquare | BPercent => overwrite c
  end.
Proof. apply press_overwrite. Qed.

(** X10: [square] and [percent] do not arm overwrite mode: in append mode, a
    digit typed after them is appended to the result they display. *)
Theorem digit_after_square_appends (c : Calculator) (d : nat) :
  overwrite c = false -> (d <= 9)%nat ->
  lcd (run [BSquare; BDigit d] c)
  = toString (mul (parseFloat (lcd c)) (parseFloat (lcd c))) ++ String (digit_char d) ""
  /\ lcd (run [BPercent; BDigit d] c)
     = toString (div (parseFloat (lcd c)) (of_Z 100)) ++ String (digit_char d) "".
Proof.
  intros Hw Hd. cbn [run fold_left press].
  assert (Hs : overwrite (square c) = false)
    by (rewrite <- Hw; apply (press_overwrite c BSquare)).
  assert (Hp : overwrite (percent c) = false)
    by (rewrite <- Hw; apply (press_overwrite c BPercent)).
  destruct (digit_append_mode (of_Z (Z.of_nat d)) _ Hs) as [E1 _].
  destruct (digit_append_mode (of_Z (Z.of_nat d)) _ Hp) as [E2 _].
  rewrite E1, E2, (toString_digit d Hd).
  unfold square, percent. calc. split; reflexivity.
Qed.

Lemma digit_after_square_appends_witness :
  lcd (run [BSquare; BDigit 5] (run [BDigit 3] init)) = "95".
Proof.
  assert (Hw : overwrite (run [BDigit 3] init) = false) by (vm_compute; reflexivity).
  assert (Hd : (5 <= 9)%nat) by lia.
  rewrite (proj1 (digit_after_square_appends _ 5%nat Hw Hd)).
  vm_compute. reflexivity.
Defined.

(** X11: The sign key pressed in overwrite mode, as right after an operator key,
    [=] or [clear], discards the display for 0 whatever it showed, keeps
    the pending operand and operator, and the next digit is appended to
    that 0. *)
Theorem negate_in_overwrite_mode (c : Calculator) (d : nat) :
  overwrite c = true -> (d <= 9)%nat ->
  lcd (negate c) = "0"
  /\ arg (negate c) = arg c /\ lastOp (negate c) = lastOp c
  /\ repeat (negate c) = repeat c
  /\ lcd (run [BNegate; BDigit d] c) = String "0" (String (digit_char d) "").
Proof.
  intros Hw Hd.
  assert (H : lcd (negate c) = "0" /\ arg (negate c) = arg c
              /\ lastOp (negate c) = lastOp c /\ repeat (negate c) = repeat c).
  { destruct c as [l a p w r g]. cbn [overwrite] in Hw. subst w.
    repeat split. }
  destruct H as (Hl & Ha & Hp & Hr). repeat apply conj; try assumption.
  cbn [run fold_left press].
  assert (Hn : overwrite (negate c) = false) by apply (press_overwrite c BNegate).
  destruct (digit_append_mode (of_Z (Z.of_nat d)) _ Hn) as [E _].
  rewrite E, Hl, (toString_digit d Hd). reflexivity.
Qed.

Lemma negate_in_overwrite_mode_witness :
  lcd (run [BNegate; BDigit 3] (run [BDigit 5; BOp Add] init)) = "03".
Proof.
  assert (Hw : overwrite (run [BDigit 5; BOp Add] init) = true)
    by (vm_compute; reflexivity).
  assert (Hd : (3 <= 9)%nat) by lia.
  destruct (negate_in_overwrite_mode _ 3%nat Hw Hd) as (_ & _ & _ & _ & H).
  rewrite H. reflexivity.
Defined.

(** ** Operator keys *)

(** The first branch of [op]: no operand yet, or right after [=]. *)
Lemma op_first o c :
  is_null (arg c) || repeat c = true ->
  lcd (op o c) = lcd c /\ arg (op o c) = Some (parseFloat (lcd c))
  /\ lastOp (op o c) = Some o /\ overwrite (op o c) = true
  /\ repeat (op o c) = false.
Proof.
  destruct c as [l a p w r g]. cbn [arg repeat lcd]. intros H.
  unfold op. fields. rewrite H. repeat split.
Qed.

(** The second branch of [op]: a pending operation. *)
Lemma op_second o1 o2 c a :
  arg c = Some a -> repeat c = false -> lastOp c = Some o1 ->
  lcd (op o2 c) = toString (apply_op o1 a (parseFloat (lcd c)))
  /\ arg (op o2 c) = Some (parseFloat (lcd (op o2 c)))
  /\ lastOp (op o2 c) = Some o2 /\ overwrite (op o2 c) = true
  /\ repeat (op o2 c) = false.
Proof.
  destruct c as [l x p w r g]. cbn [arg repeat lcd lastOp]. intros -> -> ->.
  unfold op. fields. destruct o1; cbn [apply_op]; crunch; repeat split.
Qed.

(** X12: An operator key pressed on a pending operation displays the string of
    the pending operator applied to the stored operand and the displayed
    value, whichever of the four operators it is, then stores as operand
    the number read back from that string, with the new operator. *)
Theorem pending_operation_collapses (o1 o2 : Op) (c : Calculator) (a : number) :
  arg c = Some a -> repeat c = false -> lastOp c = Some o1 ->
  lcd (op o2 c) = toString (apply_op o1 a (parseFloat (lcd c)))
  /\ arg (op o2 c) = Some (parseFloat (lcd (op o2 c)))
  /\ lastOp (op o2 c) = Some o2 /\ overwrite (op o2 c) = true
  /\ repeat (op o2 c) = false.
Proof. apply op_second. Qed.

Lemma pending_operation_collapses_witness :
  let c := run [BDigit 9; BOp Sub; BDigit 4] init in
  lcd (op Mul c) = "5" /\ lastOp (op Mul c) = Some Mul.
Proof.
  intros c.
  assert (Ha : arg c = Some (of_Z 9)) by (vm_compute; reflexivity).
  assert (Hr : repeat c = false) by (vm_compute; reflexivity).
  assert (Hp : lastOp c = Some Sub) by (vm_compute; reflexivity).
  destruct (pending_operation_collapses Sub Mul c _ Ha Hr Hp) as (Hl & _ & Ho & _).
  split; [|exact Ho]. rewrite Hl. vm_compute. reflexivity.
Defined.

(** X13: Two operator keys in a row do not replace the operator: with no pending
    operation (no operand yet, or right after [=]), the second key applies
    the first operator to the displayed value and itself. *)
Theorem operator_twice (o1 o2 : Op) (c : Calculator) :
  is_null (arg c) || repeat c = true ->
  lcd (op o2 (op o1 c))
  = toString (apply_op o1 (parseFloat (lcd c)) (parseFloat (lcd c)))
  /\ lastOp (op o2 (op o1 c)) = Some o2.
Proof.
  intros H. destruct (op_first o1 c H) as (Hl & Ha & Hp & _ & Hr).
  destruct (op_second o1 o2 (op o1 c) _ Ha Hr Hp) as (E & _ & Eo & _).
  rewrite E, Hl. split; [reflexivity | exact Eo].
Qed.

Lemma operator_twice_witness :
  lcd (op Mul (op Add (run [BDigit 7] init))) = "14".
Proof.
  assert (H : is_null (arg (run [BDigit 7] init)) || repeat (run [BDigit 7] init) = true)
    by (vm_compute; reflexivity).
  rewrite (proj1 (operator_twice Add Mul _ H)). vm_compute. reflexivity.
Defined.

(** X14: An operator key right after [=] continues from the displayed result:
    the display is unchanged, its value becomes the operand, and repeat
    mode ends. *)
Theorem operator_after_equals (o : Op) (c : Calculator) :
  lcd (op o (equals c)) = lcd (equals c)
  /\ arg (op o (equals c)) = Some (parseFloat (lcd (equals c)))
  /\ lastOp (op o (equals c)) = Some o
  /\ overwrite (op o (equals c)) = true /\ repeat (op o (equals c)) = false.
Proof.
  apply op_first. destruct (equals_flags c) as [-> _]. apply orb_true_r.
Qed.

(** ** Repeating [=] *)

(** X15: With Add, Sub or Mul pending, outside repeat mode, a second [=] applies
    the operator to the result displayed by the first [=] and the value the
    display had before it. *)
Theorem equals_twice_reapplies (o : Op) (c : Calculator) :
  lastOp c = Some o -> o <> Div -> repeat c = false ->
  lcd (equals (equals c))
  = toString (apply_op o (parseFloat (lcd (equals c))) (parseFloat (lcd c))).
Proof.
  intros Hp Ho Hr.
  assert (H1 : arg (equals c) = Some (parseFloat (lcd c))
               /\ repeat (equals c) = true /\ lastOp (equals c) = Some o).
  { rewrite equals_lastOp, Hp. split; [|now split].
    destruct c as [l a p w r g]. cbn [lastOp repeat lcd] in *. subst p r.
    unfold equals. fields. destruct o; crunch. }
  destruct H1 as (Ha & Hr1 & Hp1).
  destruct o; cbn [apply_op]; [| |  |now elim Ho].
  - destruct (equals_add_mul_symmetric (equals c)) as [H _].
    destruct (H Hp1) as [E _]. rewrite E, Ha. reflexivity.
  - rewrite (equals_repeat_sub _ Hr1 Hp1), Ha. reflexivity.
  - destruct (equals_add_mul_symmetric (equals c)) as [_ H].
    destruct (H Hp1) as [E _]. rewrite E, Ha. reflexivity.
Qed.

Lemma equals_twice_reapplies_witness :
  let c := run [BDigit 9; BOp Sub; BDigit 2] init in
  lcd (equals c) = "7" /\ lcd (equals (equals c)) = "5".
Proof.
  intros c.
  assert (Hp : lastOp c = Some Sub) by (vm_compute; reflexivity).
  assert (Ho : Sub <> Div) by discriminate.
  assert (Hr : repeat c = false) by (vm_compute; reflexivity).
  rewrite (equals_twice_reapplies Sub c Hp Ho Hr).
  vm_compute. split; reflexivity.
Defined.

(** ** Operand and operator outside repeat mode *)

Lemma operator_invariant_press c b :
  operator_invariant c -> operator_invariant (press c b).
Proof.
  unfold operator_invariant.
  destruct b; cbn [press]; intros H.
  - destruct c as [l a p w r g]. unfold digit. fields. destruct w; crunch; exact H.
  - destruct c as [l a p w r g]. unfold decimal. fields. destruct w; crunch; exact H.
  - destruct c as [l a p w r g]. unfold negate. fields. destruct w; crunch; exact H.
  - destruct (op_operand o c) as (_ & -> & _). discriminate.
  - destruct (equals_flags c) as [-> _]. discriminate.
  - destruct c as [l a p w r g]. unfold clear. fields.
    destruct w; crunch; exact H.
  - destruct c as [l a p w r g]. unfold square. crunch. exact H.
  - destruct c as [l a p w r g]. unfold percent. crunch. exact H.
Qed.

(** X16: In every state the keys lead to, outside repeat mode, the operand and
    the operator are both absent or both present. *)
Theorem operand_iff_operator_outside_repeat (c : Calculator) :
  reachable c -> repeat c = false ->
  (arg c = None <-> lastOp c = None).
Proof.
  intros R.
  assert (H : operand_invariant c /\ operator_invariant c).
  { induction R as [|c b _ [IH1 IH2] _].
    - split; [split; intros E; [now elim E | discriminate E]|].
      intros _ E. now elim E.
    - split; [now apply operand_invariant_press | now apply operator_invariant_press]. }
  intros Hr. destruct H as [[H1 _] H2]. specialize (H2 Hr).
  split; intros E.
  - destruct (lastOp c) eqn:Ep; [|reflexivity].
    exfalso. apply H1; [discriminate | exact E].
  - destruct (arg c) eqn:Ea; [|reflexivity].
    exfalso. apply H2; [discriminate | exact E].
Qed.

Lemma operand_iff_operator_outside_repeat_witness :
  let c := run [BDigit 2; BOp Add; BDigit 4; BClear] init in
  arg c = None <-> lastOp c = None.
Proof.
  intros c. apply operand_iff_operator_outside_repeat.
  - apply reachable_run; [|apply reach_init]. repeat constructor.
  - vm_compute. reflexivity.
Defined.

(** ** The value of what is typed *)

Lemma digit_val_char d :
  (d <= 9)%nat -> digit_val (digit_char d) = Some (N.of_nat d).
Proof.
  intros H. do 10 (destruct d as [|d]; [reflexivity|]). lia.
Qed.

Lemma is_digit_val a : is_digit a = false -> digit_val a = None.
Proof. unfold is_digit. now destruct (digit_val a). Qed.

Lemma read_digits_stop rest acc cnt :
  head_digit rest = false -> read_digits rest acc cnt = (acc, cnt, rest).
Proof.
  destruct rest as [|a r]; cbn [head_digit read_digits]; [reflexivity|].
  intros H. now rewrite (is_digit_val a H).
Qed.

Lemma read_digits_typed ds : forall rest acc cnt,
  Forall (fun d => (d <= 9)%nat) ds -> head_digit rest = false ->
  read_digits (typed ds ++ rest) acc cnt
  = (value_from acc ds, (cnt + List.length ds)%nat, rest).
Proof.
  induction ds as [|d ds IH]; intros rest acc cnt Hds Hrest.
  - cbn [typed append value_from fold_left List.length].
    rewrite Nat.add_0_r. now apply read_digits_stop.
  - inversion Hds as [|? ? Hd Hds']; subst.
    cbn [typed append read_digits]. rewrite (digit_val_char d Hd).
    rewrite (IH rest _ _ Hds' Hrest). cbn [value_from fold_left List.length].
    f_equal. f_equal. lia.
Qed.

Lemma is_digit_unsigned a :
  is_digit a = true ->
  is_white a = false /\ Ascii.eqb a "+" = false /\ Ascii.eqb a "-" = false.
Proof.
  intros H. repeat split.
  - unfold is_digit, digit_val in H. unfold is_white.
    destruct (48 <=? N_of_ascii a)%N eqn:E1; [|discriminate H].
    apply N.leb_le in E1.
    destruct (N.leb_spec 9 (N_of_ascii a)), (N.leb_spec (N_of_ascii a) 13),
      (N.eqb_spec (N_of_ascii a) 32); cbn; try reflexivity; lia.
  - destruct (Ascii.eqb_spec a "+") as [->|]; [discriminate H | reflexivity].
  - destruct (Ascii.eqb_spec a "-") as [->|]; [discriminate H | reflexivity].
Qed.

Lemma head_digit_unsigned s : head_digit s = true -> unsigned_head s = true.
Proof.
  destruct s as [|a r]; cbn [head_digit unsigned_head]; [discriminate|].
  intros H. destruct (is_digit_unsigned a H) as (-> & -> & ->). reflexivity.
Qed.

(** Reading a string that starts with neither white space nor a sign. *)
Lemma parseFloat_unsigned s :
  unsigned_head s = true ->
  parseFloat s =
  if prefix "Infinity" s then S754_infinity false
  else match read_decimal s with
       | Some (m, e) => of_decimal false m e
       | None => NaN
       end.
Proof.
  destruct s as [|a r]; cbn [unsigned_head]; [discriminate|].
  intros H. apply andb_prop in H. destruct H as [H Hm].
  apply andb_prop in H. destruct H as [Hw Hp].
  apply negb_true_iff in Hw, Hp, Hm.
  unfold parseFloat. cbn [skip_white]. rewrite Hw.
  assert (E : read_sign (String a r) = (false, String a r)).
  { apply Ascii.eqb_neq in Hp, Hm. unfold read_sign.
    destruct a as [[] [] [] [] [] [] [] []]; try reflexivity;
      [now elim Hm | now elim Hp]. }
  rewrite E. reflexivity.
Qed.

(** Reading a string after a minus sign. *)
Lemma parseFloat_minus s :
  parseFloat (String "-" s) =
  if prefix "Infinity" s then S754_infinity true
  else match read_decimal s with
       | Some (m, e) => of_decimal true m e
       | None => NaN
       end.
Proof. reflexivity. Qed.

Lemma head_digit_not_infinity s : head_digit s = true -> prefix "Infinity" s = false.
Proof.
  destruct s as [|a r]; [reflexivity|]. cbn [head_digit prefix]. intros H.
  destruct (ascii_dec "I" a) as [<-|]; [discriminate H | reflexivity].
Qed.

Lemma of_decimal_integer v : of_decimal false v 0 = of_Z (Z.of_N v).
Proof.
  destruct v as [|p]; [reflexivity|].
  cbn [of_decimal Z.of_N]. unfold of_Z, binary_normalize.
  change (Z.to_pos (10 ^ 0)) with 1%positive. now rewrite Pos.mul_1_r.
Qed.

Lemma typed_head d ds :
  (d <= 9)%nat -> head_digit (typed (d :: ds)) = true.
Proof. intros H. cbn [typed head_digit]. now apply digit_char_is_digit. Qed.

Lemma parseFloat_typed ds :
  ds <> [] -> Forall (fun d => (d <= 9)%nat) ds ->
  parseFloat (typed ds) = of_Z (digits_value ds).
Proof.
  intros Hne Hds. destruct ds as [|d ds]; [now elim Hne|].
  assert (Hh : head_digit (typed (d :: ds)) = true)
    by (inversion Hds; now apply typed_head).
  rewrite (parseFloat_unsigned _ (head_digit_unsigned _ Hh)).
  rewrite (head_digit_not_infinity _ Hh).
  unfold read_decimal.
  rewrite <- (append_nil_r (typed (d :: ds))).
  rewrite (read_digits_typed (d :: ds) "" _ _ Hds eq_refl).
  cbn [List.length Nat.add read_exponent]. change (0 - Z.of_nat 0) with 0.
  apply of_decimal_integer.
Qed.

Lemma digit_frame x c :
  arg (digit x c) = arg c /\ lastOp (digit x c) = lastOp c
  /\ repeat (digit x c) = repeat c.
Proof.
  destruct c as [l a p w r g]. unfold digit. fields.
  destruct w; calc; repeat split.
Qed.

Lemma run_digits_frame ds : forall c,
  arg (run (map BDigit ds) c) = arg c
  /\ lastOp (run (map BDigit ds) c) = lastOp c
  /\ repeat (run (map BDigit ds) c) = repeat c.
Proof.
  induction ds as [|d ds IH]; intros c; cbn [map run fold_left]; [repeat split|].
  change (fold_left press (map BDigit ds) (press c (BDigit d)))
    with (run (map BDigit ds) (digit (of_Z (Z.of_nat d)) c)).
  destruct (IH (digit (of_Z (Z.of_nat d)) c)) as (-> & -> & ->).
  apply digit_frame.
Qed.

Lemma run_digits_overwrite ds c :
  ds <> [] -> Forall (fun d => (d <= 9)%nat) ds -> overwrite c = true ->
  lcd (run (map BDigit ds) c) = typed ds
  /\ overwrite (run (map BDigit ds) c) = false.
Proof.
  intros Hne Hds Hw. destruct ds as [|d ds]; [now elim Hne|].
  inversion Hds as [|? ? Hd Hds']; subst.
  destruct (digit_overwrite_mode (of_Z (Z.of_nat d)) c Hw) as [Hl Hw'].
  cbn [map run fold_left typed].
  change (fold_left press (map BDigit ds) (press c (BDigit d)))
    with (run (map BDigit ds) (digit (of_Z (Z.of_nat d)) c)).
  split.
  - rewrite (digits_append ds _ Hds' Hw'), Hl, (toString_digit d Hd). reflexivity.
  - clear Hl. revert Hw'. generalize (digit (of_Z (Z.of_nat d)) c).
    clear. induction ds as [|d' ds IH]; intros c Hw; [exact Hw|].
    cbn [map run fold_left]. apply IH. apply (digit_append_mode _ c Hw).
Qed.

Lemma run_app bs1 bs2 c : run (bs1 ++ bs2)%list c = run bs2 (run bs1 c).
Proof. apply fold_left_app. Qed.

(** X17: Digits typed in overwrite mode enter the integer they denote: the
    display then reads as the number nearest to it. *)
Theorem typed_digits_value (ds : list nat) (c : Calculator) :
  ds <> [] -> Forall (fun d => (d <= 9)%nat) ds -> overwrite c = true ->
  parseFloat (lcd (run (map BDigit ds) c)) = of_Z (digits_value ds).
Proof.
  intros Hne Hds Hw.
  destruct (run_digits_overwrite ds c Hne Hds Hw) as [-> _].
  now apply parseFloat_typed.
Qed.

Lemma typed_digits_value_witness :
  parseFloat (lcd (run (map BDigit [1; 0; 2; 4]%nat) init)) = of_Z 1024.
Proof.
  assert (Hne : [1; 0; 2; 4]%nat <> []) by discriminate.
  assert (Hds : Forall (fun d => (d <= 9)%nat) [1; 0; 2; 4]%nat)
    by (repeat constructor).
  assert (Hw : overwrite init = true) by reflexivity.
  rewrite (typed_digits_value _ init Hne Hds Hw). reflexivity.
Defined.

(** ** Two operands and [=] *)

(** X18: With no operation pending (no operand yet, or right after [=]), typing
    a first integer, an operator, a second integer and [=] displays the
    string of the operator applied to the two integers as numbers; for a
    division this needs a first operand that is not zero. *)
Theorem two_operands_compute (o : Op) (ds1 ds2 : list nat) (c : Calculator) :
  ds1 <> [] -> ds2 <> [] ->
  Forall (fun d => (d <= 9)%nat) ds1 -> Forall (fun d => (d <= 9)%nat) ds2 ->
  overwrite c = true -> is_null (arg c) || repeat c = true ->
  (o = Div -> strict_eq (of_Z (digits_value ds1)) zero = false) ->
  lcd (run (map BDigit ds1 ++ BOp o :: map BDigit ds2 ++ [BEquals]) c)
  = toString (apply_op o (of_Z (digits_value ds1)) (of_Z (digits_value ds2))).
Proof.
  intros Hn1 Hn2 Hd1 Hd2 Hw Hfirst Hdiv.
  rewrite run_app. cbn [run fold_left press].
  change (fold_left press (map BDigit ds2 ++ [BEquals])%list ?x)
    with (run (map BDigit ds2 ++ [BEquals])%list x).
  rewrite run_app. cbn [run fold_left press].
  change (fold_left press (map BDigit ?l) ?x) with (run (map BDigit l) x).
  set (c1 := run (map BDigit ds1) c).
  destruct (run_digits_overwrite ds1 c Hn1 Hd1 Hw) as [Hl1 _].
  destruct (run_digits_frame ds1 c) as (Ha1 & _ & Hr1).
  fold c1 in Hl1, Ha1, Hr1.
  assert (Hf1 : is_null (arg c1) || repeat c1 = true) by (now rewrite Ha1, Hr1).
  destruct (op_first o c1 Hf1) as (Hl2 & Ha2 & Hp2 & Hw2 & Hr2).
  set (c2 := op o c1) in *.
  destruct (run_digits_overwrite ds2 c2 Hn2 Hd2 Hw2) as [Hl3 _].
  destruct (run_digits_frame ds2 c2) as (Ha3 & Hp3 & Hr3).
  set (c3 := run (map BDigit ds2) c2) in *.
  rewrite Ha2, Hl1, (parseFloat_typed ds1 Hn1 Hd1) in Ha3.
  rewrite Hp2 in Hp3. rewrite Hr2 in Hr3.
  assert (Hv : parseFloat (lcd c3) = of_Z (digits_value ds2))
    by (rewrite Hl3; now apply parseFloat_typed).
  destruct o; cbn [apply_op].
  - destruct (equals_add_mul_symmetric c3) as [H _].
    destruct (H Hp3) as [_ E]. now rewrite E, Ha3, Hv.
  - destruct c3 as [l a p w r g]. cbn [lcd arg lastOp repeat] in *. subst a p r.
    unfold equals. fields. calc. now rewrite Hv.
  - destruct (equals_add_mul_symmetric c3) as [_ H].
    destruct (H Hp3) as [_ E]. now rewrite E, Ha3, Hv.
  - rewrite (equals_div_order c3 Hp3); rewrite Ha3; cbn [is_zero to_number].
    + now rewrite Hv.
    + now apply Hdiv.
Qed.

Lemma two_operands_compute_witness :
  lcd (run (map BDigit [1; 2]%nat ++ BOp Mul :: map BDigit [3; 5]%nat ++ [BEquals]) init)
  = "420".
Proof.
  assert (Hn1 : [1; 2]%nat <> []) by discriminate.
  assert (Hn2 : [3; 5]%nat <> []) by discriminate.
  assert (Hd1 : Forall (fun d => (d <= 9)%nat) [1; 2]%nat) by (repeat constructor).
  assert (Hd2 : Forall (fun d => (d <= 9)%nat) [3; 5]%nat) by (repeat constructor).
  assert (Hw : overwrite init = true) by reflexivity.
  assert (Hf : is_null (arg init) || repeat init = true) by reflexivity.
  assert (Hdiv : Mul = Div -> strict_eq (of_Z (digits_value [1; 2]%nat)) zero = false)
    by discriminate.
  rewrite (two_operands_compute Mul _ _ init Hn1 Hn2 Hd1 Hd2 Hw Hf Hdiv).
  vm_compute. reflexivity.
Defined.

(** ** Typing a decimal numeral *)

Lemma indexOf_typed ds :
  Forall (fun d => (d <= 9)%nat) ds -> indexOf "." (typed ds) = -1.
Proof.
  induction 1 as [|d ds Hd _ IH]; cbn [typed indexOf]; [reflexivity|].
  pose proof (digit_char_is_digit d Hd) as Hc.
  destruct (Ascii.eqb_spec (digit_char d) ".") as [E|_];
    [rewrite E in Hc; discriminate Hc|].
  now rewrite IH.
Qed.

Lemma decimal_append_mode c :
  overwrite c = false -> indexOf "." (lcd c) = -1 ->
  lcd (decimal c) = lcd c ++ "." /\ overwrite (decimal c) = false.
Proof.
  destruct c as [l a p w r g]. cbn [overwrite lcd]. intros -> E.
  unfold decimal. fields. rewrite E. split; reflexivity.
Qed.

(** X19: An integer part, the decimal key and a fractional part, typed in
    overwrite mode, are displayed as typed, and the display reads as the
    number nearest to the decimal fraction typed. *)
Theorem typed_decimal_numeral (ds1 ds2 : list nat) (c : Calculator) :
  ds1 <> [] ->
  Forall (fun d => (d <= 9)%nat) ds1 -> Forall (fun d => (d <= 9)%nat) ds2 ->
  overwrite c = true ->
  let c' := run (map BDigit ds1 ++ BDecimal :: map BDigit ds2) c in
  lcd c' = typed ds1 ++ "." ++ typed ds2
  /\ parseFloat (lcd c')
     = of_decimal false (value_from (value_from 0 ds1) ds2)
         (- Z.of_nat (List.length ds2)).
Proof.
  intros Hn1 Hd1 Hd2 Hw c'.
  assert (Hl : lcd c' = typed ds1 ++ "." ++ typed ds2).
  { unfold c'. rewrite run_app. cbn [run fold_left press].
    change (fold_left press (map BDigit ?l) ?x) with (run (map BDigit l) x).
    destruct (run_digits_overwrite ds1 c Hn1 Hd1 Hw) as [Hl1 Hw1].
    assert (Hi : indexOf "." (lcd (run (map BDigit ds1) c)) = -1)
      by (rewrite Hl1; now apply indexOf_typed).
    destruct (decimal_append_mode _ Hw1 Hi) as [Hl2 Hw2].
    rewrite (digits_append ds2 _ Hd2 Hw2), Hl2, Hl1.
    apply append_assoc. }
  split; [exact Hl|]. rewrite Hl.
  destruct ds1 as [|d ds1]; [now elim Hn1|].
  assert (Hh : head_digit (typed (d :: ds1) ++ "." ++ typed ds2) = true)
    by (inversion Hd1; cbn [typed append head_digit]; now apply digit_char_is_digit).
  rewrite (parseFloat_unsigned _ (head_digit_unsigned _ Hh)).
  rewrite (head_digit_not_infinity _ Hh).
  unfold read_decimal.
  rewrite (read_digits_typed (d :: ds1) ("." ++ typed ds2) _ _ Hd1 eq_refl).
  change ("." ++ typed ds2) with (String "." (typed ds2)). cbv iota beta.
  rewrite <- (append_nil_r (typed ds2)).
  rewrite (read_digits_typed ds2 "" _ _ Hd2 eq_refl).
  cbn [List.length Nat.add read_exponent].
  change (0 - Z.of_nat (List.length ds2)) with (- Z.of_nat (List.length ds2)).
  reflexivity.
Qed.

Lemma typed_decimal_numeral_witness :
  let c' := run (map BDigit [3]%nat ++ BDecimal :: map BDigit [1; 4]%nat) init in
  lcd c' = "3.14" /\ parseFloat (lcd c') = of_decimal false 314 (-2).
Proof.
  assert (Hn1 : [3]%nat <> []) by discriminate.
  assert (Hd1 : Forall (fun d => (d <= 9)%nat) [3]%nat) by (repeat constructor).
  assert (Hd2 : Forall (fun d => (d <= 9)%nat) [1; 4]%nat) by (repeat constructor).
  assert (Hw : overwrite init = true) by reflexivity.
  exact (typed_decimal_numeral [3]%nat [1; 4]%nat init Hn1 Hd1 Hd2 Hw).
Defined.

(** ** The sign key and the displayed value *)

Lemma binary_round_aux_opp m e l :
  binary_round_aux prec emax true m e l
  = opp (binary_round_aux prec emax false m e l).
Proof.
  unfold binary_round_aux.
  destruct (shr_fexp prec emax m e l) as [mrs' e'].
  destruct (shr_fexp prec emax _ e' loc_Exact) as [mrs'' e''].
  destruct (shr_m mrs''); [reflexivity | | reflexivity].
  destruct (e'' <=? emax - prec); reflexivity.
Qed.

Lemma of_decimal_opp m e : of_decimal true m e = opp (of_decimal false m e).
Proof.
  destruct m as [|p]; [reflexivity|]. cbn [of_decimal].
  assert (R : forall q, binary_round prec emax true q 0
                        = opp (binary_round prec emax false q 0)).
  { intros q. unfold binary_round.
    destruct (shl_align q 0 _) as [mz ez]. apply binary_round_aux_opp. }
  destruct e as [|q|q]; [apply R | apply R |].
  unfold div, SFdiv.
  destruct (SFdiv_core_binary prec emax (Z.pos p) 0 (Z.pos (10 ^ q)) 0) as [[mz ez] lz].
  apply binary_round_aux_opp.
Qed.

Lemma opp_involutive x : opp (opp x) = x.
Proof. destruct x as [s|s| |s m e]; cbn; try rewrite negb_involutive; reflexivity. Qed.

(** A minus sign in front of an unsigned display negates the value read. *)
Lemma parseFloat_negated s :
  unsigned_head s = true -> parseFloat (String "-" s) = opp (parseFloat s).
Proof.
  intros H. rewrite parseFloat_minus, (parseFloat_unsigned s H).
  destruct (prefix "Infinity" s); [reflexivity|].
  destruct (read_decimal s) as [[m e]|]; [apply of_decimal_opp | reflexivity].
Qed.

Lemma toString_sign_ok x : sign_ok (toString x) = true.
Proof.
  destruct x as [sg|[|]| |[|] m e]; cbn [toString]; try reflexivity.
  - change ("-" ++ toString_pos m e) with (String "-" (toString_pos m e)).
    unfold sign_ok. cbn [starts_with substring1 unsigned_head].
    rewrite (head_digit_unsigned _ (toString_pos_head m e)). reflexivity.
  - unfold sign_ok.
    now rewrite (head_digit_unsigned _ (toString_pos_head m e)).
Qed.

Lemma unsigned_head_app s t :
  unsigned_head s = true -> unsigned_head (s ++ t) = true.
Proof. destruct s; [discriminate | trivial]. Qed.

Lemma sign_ok_app s t : sign_ok s = true -> sign_ok (s ++ t) = true.
Proof.
  unfold sign_ok. intros H. apply orb_true_iff in H. destruct H as [H|H].
  - now rewrite (unsigned_head_app s t H).
  - apply andb_prop in H. destruct H as [Hm Hu].
    destruct s as [|a r]; [discriminate Hm|]. cbn [starts_with substring1 append] in *.
    rewrite Hm, (unsigned_head_app r t Hu). apply orb_true_r.
Qed.

Lemma sign_ok_cases s :
  sign_ok s = true ->
  (starts_with "-" s = false /\ unsigned_head s = true)
  \/ (exists r, s = String "-" r /\ unsigned_head r = true).
Proof.
  unfold sign_ok. intros H. apply orb_true_iff in H. destruct H as [H|H].
  - left. split; [|exact H]. destruct s as [|a r]; [discriminate H|].
    cbn [unsigned_head starts_with] in *.
    apply andb_prop in H. destruct H as [_ H]. now apply negb_true_iff in H.
  - apply andb_prop in H. destruct H as [Hm Hu].
    destruct s as [|a r]; [discriminate Hm|]. cbn [starts_with substring1] in *.
    apply Ascii.eqb_eq in Hm. subst a. right. now exists r.
Qed.

Lemma sign_ok_press c b :
  valid_button b -> sign_ok (lcd c) = true -> sign_ok (lcd (press c b)) = true.
Proof.
  destruct b; cbn [press valid_button]; intros Hb Hc.
  - destruct c as [l a p w r g]. unfold digit. fields. cbn [lcd] in Hc.
    destruct w; calc; [apply toString_sign_ok | now apply sign_ok_app].
  - destruct c as [l a p w r g]. unfold decimal. fields. cbn [lcd] in Hc.
    destruct w; fields; [reflexivity|].
    destruct (indexOf "." l =? -1); fields; [now apply sign_ok_app | exact Hc].
  - destruct c as [l a p w r g]. unfold negate. fields. cbn [lcd] in Hc.
    destruct w; fields; [reflexivity|].
    destruct (String.eqb l "0"); fields; [exact Hc|].
    destruct (sign_ok_cases l Hc) as [[Hm Hu]|[r' [-> Hu]]].
    + rewrite Hm. calc. change ("-" ++ l) with (String "-" l).
      unfold sign_ok. cbn [starts_with substring1]. rewrite Hu.
      change (Ascii.eqb "-" "-") with true. apply orb_true_r.
    + cbn [starts_with]. change (Ascii.eqb "-" "-") with true. cbv iota.
      calc. cbn [substring1]. unfold sign_ok. now rewrite Hu.
  - destruct c as [l a p w r g]. unfold op. fields. cbn [lcd] in Hc.
    destruct a as [x|], r, p as [[]|]; crunch; try assumption;
      apply toString_sign_ok.
  - destruct c as [l a p w r g]. unfold equals. fields. cbn [lcd] in Hc.
    destruct a as [x|], r, p as [[]|]; crunch; try assumption;
      apply toString_sign_ok.
  - destruct c as [l a p w r g]. unfold clear. fields. destruct w; calc; reflexivity.
  - destruct c as [l a p w r g]. unfold square. calc. apply toString_sign_ok.
  - destruct c as [l a p w r g]. unfold percent. calc. apply toString_sign_ok.
Qed.

Lemma reachable_sign_ok c : reachable c -> sign_ok (lcd c) = true.
Proof.
  induction 1 as [|c b _ IH Hb]; [reflexivity | now apply sign_ok_press].
Qed.

(** X20: In every state the keys lead to, in append mode with a display other
    than 0, the sign key negates the value the display reads as. *)
Theorem negate_negates_value (c : Calculator) :
  reachable c -> overwrite c = false -> lcd c <> "0" ->
  parseFloat (lcd (negate c)) = opp (parseFloat (lcd c)).
Proof.
  intros R Hw Hz. pose proof (reachable_sign_ok c R) as Hs.
  destruct c as [l a p w r g]. cbn [lcd overwrite] in *. subst w.
  unfold negate. fields.
  destruct (String.eqb_spec l "0") as [E|_]; [now elim Hz|]. fields.
  destruct (sign_ok_cases l Hs) as [[Hm Hu]|[r' [-> Hu]]].
  - rewrite Hm. calc. change ("-" ++ l) with (String "-" l).
    now apply parseFloat_negated.
  - cbn [starts_with]. change (Ascii.eqb "-" "-") with true. cbv iota.
    calc. cbn [substring1].
    rewrite (parseFloat_negated r' Hu). symmetry. apply opp_involutive.
Qed.

Lemma negate_negates_value_witness :
  let c := run [BDigit 4; BDecimal; BDigit 2] init in
  parseFloat (lcd (negate c)) = opp (parseFloat "4.2").
Proof.
  intros c.
  assert (R : reachable c).
  { apply reachable_run; [|apply reach_init]. repeat constructor. }
  assert (Hw : overwrite c = false) by (vm_compute; reflexivity).
  assert (Hz : lcd c <> "0") by (vm_compute; discriminate).
  rewrite (negate_negates_value c R Hw Hz). vm_compute. reflexivity.
Defined.

(** ** Clearing an entry *)

(** The first [=] after an operator. *)
Lemma equals_applies o c :
  lastOp c = Some o -> repeat c = false ->
  (o = Div -> is_zero (arg c) = false) ->
  lcd (equals c) = toString (apply_op o (to_number (arg c)) (parseFloat (lcd c))).
Proof.
  intros Hp Hr Hd. destruct o; cbn [apply_op].
  - destruct (equals_add_mul_symmetric c) as [H _]. now destruct (H Hp).
  - destruct c as [l a p w r g]. cbn [lcd arg lastOp repeat] in *. subst p r.
    unfold equals. crunch.
  - destruct (equals_add_mul_symmetric c) as [_ H]. now destruct (H Hp).
  - apply (equals_div_order c Hp). now apply Hd.
Qed.

(** X21: [clear] pressed in append mode erases the entry only: with an operation
    pending, a new integer typed after it and [=] display the string of the
    pending operator applied to the stored operand and the new integer. *)
Theorem clear_entry_keeps_operation (o : Op) (a : number) (ds : list nat)
    (c : Calculator) :
  overwrite c = false -> arg c = Some a -> lastOp c = Some o ->
  repeat c = false ->
  ds <> [] -> Forall (fun d => (d <= 9)%nat) ds ->
  (o = Div -> strict_eq a zero = false) ->
  lcd (run (BClear :: map BDigit ds ++ [BEquals]) c)
  = toString (apply_op o a (of_Z (digits_value ds))).
Proof.
  intros Hw Ha Hp Hr Hne Hds Hdiv.
  cbn [run fold_left press].
  change (fold_left press (map BDigit ds ++ [BEquals])%list ?x)
    with (run (map BDigit ds ++ [BEquals])%list x).
  rewrite run_app. cbn [run fold_left press].
  change (fold_left press (map BDigit ?l) ?x) with (run (map BDigit l) x).
  destruct (clear_append_mode c Hw) as (Ha1 & Hp1 & Hr1).
  destruct (clear_display c) as [_ Hw1].
  destruct (run_digits_overwrite ds (clear c) Hne Hds Hw1) as [Hl2 _].
  destruct (run_digits_frame ds (clear c)) as (Ha2 & Hp2 & Hr2).
  rewrite Ha1, Ha in Ha2. rewrite Hp1, Hp in Hp2. rewrite Hr1, Hr in Hr2.
  rewrite (equals_applies o _ Hp2 Hr2); rewrite Ha2; cbn [to_number is_zero];
    [|exact Hdiv].
  now rewrite Hl2, (parseFloat_typed ds Hne Hds).
Qed.

Lemma clear_entry_keeps_operation_witness :
  lcd (run (BClear :: map BDigit [3]%nat ++ [BEquals])
         (run [BDigit 2; BOp Add; BDigit 5] init)) = "5".
Proof.
  set (c := run [BDigit 2; BOp Add; BDigit 5] init).
  assert (Hw : overwrite c = false) by (vm_compute; reflexivity).
  assert (Ha : arg c = Some (of_Z 2)) by (vm_compute; reflexivity).
  assert (Hp : lastOp c = Some Add) by (vm_compute; reflexivity).
  assert (Hr : repeat c = false) by (vm_compute; reflexivity).
  assert (Hne : [3]%nat <> []) by discriminate.
  assert (Hds : Forall (fun d => (d <= 9)%nat) [3]%nat) by (repeat constructor).
  assert (Hdiv : Add = Div -> strict_eq (of_Z 2) zero = false) by discriminate.
  rewrite (clear_entry_keeps_operation Add _ _ c Hw Ha Hp Hr Hne Hds Hdiv).
  vm_compute. reflexivity.
Defined.

(** X22: [clear] calls the debug channel, then the info channel, and nothing
    else: the warning check that ends it reads a display of 0 and never
    fires. *)
Theorem clear_log (c : Calculator) :
  calLog (clear c)
  = (calLog c ++ [(Debug, "Button pressed.");
                  (Info, "Overwrite is now enabled.")])%list.
Proof.
  assert (E1 : geb (parseFloat "0") MAX_SAFE_INTEGER = false)
    by (vm_compute; reflexivity).
  assert (E2 : leb (parseFloat "0") MIN_SAFE_INTEGER = false)
    by (vm_compute; reflexivity).
  destruct c as [l a p w r g].
  unfold clear, highOrLowWarningLog. fields.
  destruct w; fields; rewrite E1, E2; fields;
    rewrite <- app_assoc; reflexivity.
Qed.
